(** * Quantum Synth API: a shallow embedding of [views.py], [tasks.py],
      [serializers.py] and [models.py], with the properties of the
      orchestration core proved against it.

    Conventions of the embedding.
    - Audio samples are rationals ([Q]); numpy arrays are one- or
      two-dimensional ([Arr1], [Arr2]), the only shapes [librosa.load]
      returns.
    - Python exceptions are values of [res]: [Raise msg] carries [str(e)].
      Every handler in the source is [except Exception], so the class of the
      exception is never inspected and is not recorded.
    - Dictionaries are [gmap string pyval].
    - The codec ([librosa.load]), the scheme loader
      ([quantumaudio.load_scheme]) and the transform ([quantumaudio.stream])
      are collaborators outside the repository: they are section variables,
      arbitrary functions that may raise.
    - The task executor (Celery) is explicit state: a queue of submitted
      jobs, a result backend, and a log of the transform calls made. *)

From Stdlib Require Import ZArith QArith Qminmax Lia Lqa.
From stdpp Require Import base option list strings gmap fin_maps pretty.

Set Warnings "-register-all".

Local Open Scope Z_scope.
Local Open Scope string_scope.

(** ** Python values *)

(** The JSON-like values that travel in task payloads and HTTP bodies. *)
Inductive pyval : Type :=
  | VNone : pyval
  | VStr (s : string) : pyval
  | VInt (n : Z) : pyval
  | VFloat (q : Q) : pyval
  | VList (l : list pyval) : pyval
  | VDict (d : gmap string pyval) : pyval.

(** [v == s] for a string literal [s]. *)
Definition is_str (v : pyval) (s : string) : bool :=
  match v with
  | VStr t => bool_decide (t = s)
  | _ => false
  end.

(** [isinstance(v, dict)] *)
Definition isinstance_dict (v : pyval) : bool :=
  match v with
  | VDict _ => true
  | _ => false
  end.

(** ** Exceptions *)

Inductive res (A : Type) : Type :=
  | Ok (a : A) : res A
  | Raise (msg : string) : res A.
Arguments Ok {A} a.
Arguments Raise {A} msg.

Definition res_bind {A B} (r : res A) (k : A -> res B) : res B :=
  match r with
  | Ok a => k a
  | Raise m => Raise m
  end.

(** ** numpy arrays *)

Inductive ndarray : Type :=
  | Arr1 (xs : list Q) : ndarray
  | Arr2 (rows : list (list Q)) : ndarray.

(** [len(a.shape)] *)
Definition ndim (a : ndarray) : Z :=
  match a with
  | Arr1 _ => 1
  | Arr2 _ => 2
  end.

(** [len(a)]: the extent of the first axis. *)
Definition len (a : ndarray) : Z :=
  match a with
  | Arr1 xs => Z.of_nat (length xs)
  | Arr2 rows => Z.of_nat (length rows)
  end.

(** [a.shape[-1]]: the extent of the last axis. *)
Definition shape_last (a : ndarray) : Z :=
  match a with
  | Arr1 xs => Z.of_nat (length xs)
  | Arr2 rows => Z.of_nat (length (hd [] rows))
  end.

(** The number of samples per channel of a clip, whatever its layout. *)
Definition sample_count (a : ndarray) : Z := shape_last a.

(** [np.clip(x, lo, hi)] on a scalar: [minimum(hi, maximum(x, lo))]. A
    sample is a rational, so a finite number: NaN, which [np.clip] passes
    through as it is, is not a value of the embedding, and what is proved of
    clipped samples is proved of finite ones. *)
Definition clip1 (lo hi x : Q) : Q := Qmin hi (Qmax x lo).

(** [np.clip(a, lo, hi)], element-wise. *)
Definition np_clip (a : ndarray) (lo hi : Q) : ndarray :=
  match a with
  | Arr1 xs => Arr1 (map (clip1 lo hi) xs)
  | Arr2 rows => Arr2 (map (map (clip1 lo hi)) rows)
  end.

(** Sum of a list of samples. *)
Definition Qsum (xs : list Q) : Q := foldr Qplus 0%Q xs.

(** [np.mean(a, axis=0)] of a (channels, samples) array: the sample-wise
    average across the channels. *)
Definition np_mean_axis0 (rows : list (list Q)) : list Q :=
  map (fun i => (Qsum (map (fun r => nth i r 0%Q) rows)
                 / inject_Z (Z.of_nat (length rows)))%Q)
      (seq 0 (length (hd [] rows))).

(** The samples of an array, all channels together. *)
Definition samples_of (a : ndarray) : list Q :=
  match a with
  | Arr1 xs => xs
  | Arr2 rows => concat rows
  end.

(** Every sample lies in [[-1, 1]]. *)
Definition in_unit_range (a : ndarray) : Prop :=
  Forall (fun x => (-1 <= x /\ x <= 1)%Q) (samples_of a).

Definition in_unit_rangeb (a : ndarray) : bool :=
  forallb (fun x => Qle_bool (-1) x && Qle_bool x 1) (samples_of a).

(** Python lists as [tolist] produces them and as the task receives them. *)
Inductive pylist : Type :=
  | L1 (xs : list Q) : pylist
  | L2 (rows : list (list Q)) : pylist.

(** [a.tolist()] *)
Definition tolist (a : ndarray) : pylist :=
  match a with
  | Arr1 xs => L1 xs
  | Arr2 rows => L2 rows
  end.

(** The list as a JSON value. *)
Definition pylist_val (l : pylist) : pyval :=
  match l with
  | L1 xs => VList (map VFloat xs)
  | L2 rows => VList (map (fun r => VList (map VFloat r)) rows)
  end.

(** All rows have the length of the first one. *)
Definition rectangular (rows : list (list Q)) : bool :=
  forallb (fun r => Nat.eqb (length r) (length (hd [] rows))) rows.

(** [np.array(l, dtype=np.float32)]: an empty list is a one-dimensional
    empty array whatever it was before; ragged rows raise [ValueError]. *)
Definition np_array (l : pylist) : res ndarray :=
  match l with
  | L1 xs => Ok (Arr1 xs)
  | L2 [] => Ok (Arr1 [])
  | L2 rows =>
      if rectangular rows then Ok (Arr2 rows)
      else Raise "setting an array element with a sequence. The requested array has an inhomogeneous shape after 1 dimensions."
  end.

(** ** serializers.py *)

(** [x in l] for a list of string literals. *)
Definition str_in (x : string) (l : list string) : bool :=
  existsb (String.eqb x) l.

Definition SCHEME_CHOICES : list string :=
  ["qpam"; "sqpam"; "msqpam"; "qsm"; "mqsm"].

(** What a client can send in [use_patch]: null (in a form, the empty
    value), an integer, or something that is not an integer. *)
Inductive raw_int : Type :=
  | RNull : raw_int
  | RInt (n : Z) : raw_int
  | RInvalid (s : string) : raw_int.

(** [request.data] of a form submission, the encoding that carries the
    upload: each field is absent or present. [rq_shots] and
    [rq_buffer_size] hold the integer the client sent; [rq_use_patch]
    holds the value as sent. *)
Record RequestData : Type := {
  rq_audio : option (list Byte.byte);
  rq_scheme : option string;
  rq_shots : option Z;
  rq_buffer_size : option Z;
  rq_use_patch : option raw_int
}.

(** [serializer.validated_data] of [AudioProcessRequestSerializer]. *)
Record ValidatedData : Type := {
  v_audio : list Byte.byte;
  v_scheme : string;
  v_shots : Z;
  v_buffer_size : Z;
  v_use_patch : option (option Z)
}.

(** A field's validation: its value, or the codes of its errors. *)
Definition field (A : Type) : Type := A + list string.

(** [FileField(required=True)]: a file must be submitted and must not be
    empty. *)
Definition validate_audio (o : option (list Byte.byte)) : field (list Byte.byte) :=
  match o with
  | None => inr ["required"]
  | Some [] => inr ["empty"]
  | Some b => inl b
  end.

(** [ChoiceField(choices=..., default=d)] *)
Definition validate_choice (choices : list string) (d : string)
    (o : option string) : field string :=
  match o with
  | None => inl d
  | Some s => if str_in s choices then inl s else inr ["invalid_choice"]
  end.

(** The value a field sees of a form: the empty value of a field that is
    not required counts as absent. *)
Definition form_value (o : option string) : option string :=
  match o with
  | Some s => if String.eqb s "" then None else Some s
  | None => None
  end.

(** [IntegerField(required=False, allow_null=True)]: absent, null or an
    integer; anything else is invalid. *)
Definition validate_use_patch (o : option raw_int) : field (option (option Z)) :=
  match o with
  | None => inl None
  | Some RNull => inl (Some None)
  | Some (RInt n) => inl (Some (Some n))
  | Some (RInvalid _) => inr ["invalid"]
  end.

(** The validated value of a [use_patch] that passes: nothing when the
    field is absent, null, or the integer. *)
Definition use_patch_value (o : option raw_int) : option (option Z) :=
  match o with
  | Some RNull => Some None
  | Some (RInt n) => Some (Some n)
  | _ => None
  end.

(** [IntegerField(default=d, min_value=lo, max_value=hi)] *)
Definition validate_int (d lo hi : Z) (o : option Z) : field Z :=
  match o with
  | None => inl d
  | Some n =>
      if (n <? lo)%Z then inr ["min_value"]
      else if (hi <? n)%Z then inr ["max_value"]
      else inl n
  end.

(** One entry of [serializer.errors]. *)
Definition add_error {A} (name : string) (f : field A)
    (errs : gmap string pyval) : gmap string pyval :=
  match f with
  | inl _ => errs
  | inr codes => <[name := VList (map VStr codes)]> errs
  end.

(** [AudioProcessRequestSerializer(data=rq)]: [inl] is [validated_data] when
    [is_valid()] holds, [inr] is [errors] otherwise. Every field is
    validated, [use_patch] included, which is an unbounded optional
    integer; one failure makes the request invalid. An empty scheme counts
    as no scheme. *)
Definition AudioProcessRequestSerializer (rq : RequestData)
    : ValidatedData + gmap string pyval :=
  let a := validate_audio (rq_audio rq) in
  let s := validate_choice SCHEME_CHOICES "qpam" (form_value (rq_scheme rq)) in
  let n := validate_int 4000 1000 8000 (rq_shots rq) in
  let b := validate_int 256 128 1024 (rq_buffer_size rq) in
  let u := validate_use_patch (rq_use_patch rq) in
  match a, s, n, b, u with
  | inl audio, inl scheme, inl shots, inl buffer_size, inl use_patch =>
      inl {| v_audio := audio; v_scheme := scheme; v_shots := shots;
             v_buffer_size := buffer_size; v_use_patch := use_patch |}
  | _, _, _, _, _ =>
      inr (add_error "audio" a (add_error "scheme" s
            (add_error "shots" n (add_error "buffer_size" b
              (add_error "use_patch" u ∅)))))
  end.

(** ** HTTP responses *)

Record Response : Type := {
  data : pyval;
  status_code : Z
}.

Definition HTTP_200_OK : Z := 200.
Definition HTTP_400_BAD_REQUEST : Z := 400.
Definition HTTP_500_INTERNAL_SERVER_ERROR : Z := 500.

(** [Response(d)] and [Response(d, status=c)] for a dictionary [d]. *)
Definition respond (d : gmap string pyval) (c : Z) : Response :=
  {| data := VDict d; status_code := c |}.

(** [r.data.get(k)] *)
Definition body_get (r : Response) (k : string) : option pyval :=
  match data r with
  | VDict d => d !! k
  | _ => None
  end.

(** ** The task executor and the tables *)

(** The arguments of a [process_quantum_audio.delay(...)] call. *)
Record TaskArgs : Type := {
  t_audio_data : pylist;
  t_scheme : string;
  t_shots : Z;
  t_buffer_size : Z;
  t_sample_rate : Z
}.

(** What the result backend knows of a task id ([AsyncResult]). A task that
    returned is [SUCCESS] and holds its return value; one that raised is
    [FAILURE] and holds the exception; an id the backend has no record of is
    reported as [PENDING]. *)
Inductive AsyncResult : Type :=
  | Unready (state : string) : AsyncResult
  | Succeeded (retval : pyval) : AsyncResult
  | Failed (exc : string) : AsyncResult
  | Revoked (exc : string) : AsyncResult.

(** [task_result.status] *)
Definition ar_status (r : AsyncResult) : string :=
  match r with
  | Unready st => st
  | Succeeded _ => "SUCCESS"
  | Failed _ => "FAILURE"
  | Revoked _ => "REVOKED"
  end.

(** [task_result.ready()] *)
Definition ar_ready (r : AsyncResult) : bool :=
  match r with
  | Unready _ => false
  | _ => true
  end.

(** [task_result.successful()] *)
Definition ar_successful (r : AsyncResult) : bool :=
  match r with
  | Succeeded _ => true
  | _ => false
  end.

(** A row of the [ProcessedSample] table of [models.py]. *)
Record ProcessedSample : Type := {
  ps_patch : Z;
  ps_input_hash : string;
  ps_output_audio : list Byte.byte;
  ps_sample_rate : Z;
  ps_duration : Q
}.

(** One call of [quantumaudio.stream]: the data and the shot count. *)
Record StreamCall : Type := {
  sc_data : ndarray;
  sc_shots : Z
}.

Record World : Type := {
  next_id : nat;
  queue : list (string * TaskArgs);
  backend : gmap string AsyncResult;
  stream_log : list StreamCall;
  processed_samples : list ProcessedSample
}.

Definition set_queue (q : list (string * TaskArgs)) (w : World) : World :=
  {| next_id := next_id w; queue := q; backend := backend w;
     stream_log := stream_log w; processed_samples := processed_samples w |}.

Definition set_next_id (n : nat) (w : World) : World :=
  {| next_id := n; queue := queue w; backend := backend w;
     stream_log := stream_log w; processed_samples := processed_samples w |}.

Definition set_backend (b : gmap string AsyncResult) (w : World) : World :=
  {| next_id := next_id w; queue := queue w; backend := b;
     stream_log := stream_log w; processed_samples := processed_samples w |}.

Definition set_stream_log (l : list StreamCall) (w : World) : World :=
  {| next_id := next_id w; queue := queue w; backend := backend w;
     stream_log := l; processed_samples := processed_samples w |}.

Definition set_processed_samples (t : list ProcessedSample) (w : World) : World :=
  {| next_id := next_id w; queue := queue w; backend := backend w;
     stream_log := stream_log w; processed_samples := t |}.

Definition empty_world : World :=
  {| next_id := 0; queue := []; backend := ∅; stream_log := [];
     processed_samples := [] |}.

(** ** Computations that raise and change the world *)

Definition M (A : Type) : Type := World -> res A * World.

Definition ret {A} (a : A) : M A := fun w => (Ok a, w).

Definition raise {A} (msg : string) : M A := fun w => (Raise msg, w).

Definition bind {A B} (m : M A) (k : A -> M B) : M B :=
  fun w =>
    match m w with
    | (Ok a, w') => k a w'
    | (Raise e, w') => (Raise e, w')
    end.

(** A pure computation that may raise. *)
Definition lift {A} (r : res A) : M A := fun w => (r, w).

(** [try: body except Exception as e: handler(str(e))]; what the body did
    to the world before it raised stays done. *)
Definition try_catch {A} (body : M A) (handler : string -> M A) : M A :=
  fun w =>
    match body w with
    | (Ok a, w') => (Ok a, w')
    | (Raise e, w') => handler e w'
    end.

Declare Scope m_scope.
Delimit Scope m_scope with M.
Notation "'let*' x ':=' m 'in' k" := (bind m (fun x => k))
  (at level 10, x pattern, m at level 100, k at level 200) : m_scope.

(** [task.delay(args)]: the broker takes the job, which is queued under a
    fresh id (the decimal form of a counter stands for the uuid). *)
Definition delay (args : TaskArgs) : M string :=
  fun w =>
    let id := pretty (next_id w) in
    (Ok id, set_queue (queue w ++ [(id, args)]) (set_next_id (S (next_id w)) w)).

(** [AsyncResult(task_id)] *)
Definition AsyncResult_of (task_id : string) (w : World) : AsyncResult :=
  default (Unready "PENDING") (backend w !! task_id).

(** ** The collaborators, and the code that calls them *)

Section Core.

(** A loaded scheme, as [quantumaudio.load_scheme] returns it. *)
Variable Scheme : Type.

(** [librosa.load(io.BytesIO(b), sr=None, mono=False)]: the decoded samples
    and the sample rate, or an exception when the bytes cannot be parsed. *)
Variable librosa_load : list Byte.byte -> res (ndarray * Z).

(** [quantumaudio.load_scheme(name)]: may raise, may return [None]. *)
Variable load_scheme : string -> res (option Scheme).

(** [quantumaudio.stream(data, scheme=s, shots=n)] *)
Variable stream : ndarray -> Scheme -> Z -> res ndarray.

(** The call of the transform, recorded in the world. *)
Definition quantumaudio_stream (d : ndarray) (s : Scheme) (shots : Z)
    : M ndarray :=
  fun w =>
    (stream d s shots,
     set_stream_log (stream_log w ++ [{| sc_data := d; sc_shots := shots |}]) w).

(** [x / y] on integers: [ZeroDivisionError] when [y] is zero. *)
Definition true_div (x y : Z) : res Q :=
  if (y =? 0)%Z then Raise "division by zero"
  else Ok (inject_Z x / inject_Z y)%Q.

(** *** tasks.py *)

(** The body of the [try] of [process_quantum_audio]. *)
Definition process_quantum_audio_body (a : TaskArgs) : M (gmap string pyval) :=
  (let* data := lift (np_array (t_audio_data a)) in
   let* qa_scheme :=
     try_catch
       (let* s := lift (load_scheme (t_scheme a)) in
        match s with
        | None => raise ("Scheme '" +:+ t_scheme a
                           +:+ "' returned None - may not be implemented")
        | Some h => ret h
        end)
       (fun scheme_error =>
          raise ("Scheme '" +:+ t_scheme a
                   +:+ "' is not available or not implemented: "
                   +:+ scheme_error)) in
   let* processed := quantumaudio_stream data qa_scheme (t_shots a) in
   let processed := np_clip processed (-1) 1 in
   let* duration := lift (true_div (len processed) (t_sample_rate a)) in
   ret ({[ "status" := VStr "success";
           "audio" := pylist_val (tolist processed);
           "metadata" := VDict {[ "scheme" := VStr (t_scheme a);
                                  "shots" := VInt (t_shots a);
                                  "buffer_size" := VInt (t_buffer_size a);
                                  "sample_rate" := VInt (t_sample_rate a);
                                  "samples" := VInt (len processed);
                                  "duration" := VFloat duration ]} ]}
          : gmap string pyval))%M.

(** [process_quantum_audio(audio_data, scheme, shots, buffer_size,
    sample_rate)] *)
Definition process_quantum_audio (a : TaskArgs) : M (gmap string pyval) :=
  try_catch (process_quantum_audio_body a)
    (fun e => ret ({[ "status" := VStr "error"; "error" := VStr e ]}
                     : gmap string pyval)).

(** The executor runs the oldest queued job and files its outcome: the
    return value under [SUCCESS], an escaped exception under [FAILURE]. *)
Definition worker_step (w : World) : World :=
  match queue w with
  | [] => w
  | (id, a) :: q =>
      match process_quantum_audio a (set_queue q w) with
      | (Ok payload, w') =>
          set_backend (<[id := Succeeded (VDict payload)]> (backend w')) w'
      | (Raise e, w') =>
          set_backend (<[id := Failed e]> (backend w')) w'
      end
  end.

(** The executor runs [n] jobs. *)
Fixpoint worker_run (n : nat) (w : World) : World :=
  match n with
  | O => w
  | S n' => worker_run n' (worker_step w)
  end.

(** *** views.py *)

(** Lines 55-57 of [process_audio]: the buffer size handed to the task. *)
Definition tuned_buffer_size (scheme : string) (buffer_size : Z) : Z :=
  if str_in scheme ["sqpam"; "qsm"; "mqsm"] then Z.min buffer_size 128
  else buffer_size.

(** The channel handling shared by both endpoints: a two-dimensional clip
    is averaged to mono unless the scheme is a multi-channel one. *)
Definition to_scheme_layout (scheme : string) (d : ndarray) : ndarray :=
  match d with
  | Arr1 _ => d
  | Arr2 rows =>
      if negb (str_in scheme ["mqsm"; "msqpam"]) then Arr1 (np_mean_axis0 rows)
      else d
  end.

(** [process_audio(request)] *)
Definition process_audio (rq : RequestData) : M Response :=
  match AudioProcessRequestSerializer rq with
  | inr errors => ret (respond errors HTTP_400_BAD_REQUEST)
  | inl vd =>
      let audio_file := v_audio vd in
      let scheme := v_scheme vd in
      let shots := v_shots vd in
      let buffer_size := v_buffer_size vd in
      let buffer_size := tuned_buffer_size scheme buffer_size in
      try_catch
        (let* (d, sample_rate) := lift (librosa_load audio_file) in
         let d := to_scheme_layout scheme d in
         let* task_id :=
           delay {| t_audio_data := tolist d; t_scheme := scheme;
                    t_shots := shots; t_buffer_size := buffer_size;
                    t_sample_rate := sample_rate |} in
         ret (respond {[ "task_id" := VStr task_id;
                         "status" := VStr "processing";
                         "message" := VStr "Audio processing started" ]}
                HTTP_200_OK))%M
        (fun e => ret (respond {[ "error" := VStr e ]}
                         HTTP_500_INTERNAL_SERVER_ERROR))
  end.

(** [v.get(k)]: only a dictionary has [get]; on anything else the call is
    an [AttributeError]. *)
Definition py_get (v : pyval) (k : string) : res (option pyval) :=
  match v with
  | VDict d => Ok (d !! k)
  | _ => Raise "object has no attribute 'get'"
  end.

(** [d.get('status') == 'success'] *)
Definition reports_success (d : gmap string pyval) : bool :=
  match d !! "status" with
  | Some v => is_str v "success"
  | None => false
  end.

(** [isinstance(result, dict) and result.get('status') == 'success'] *)
Definition is_success_payload (result : pyval) : bool :=
  isinstance_dict result
  && match result with
     | VDict d => reports_success d
     | _ => false
     end.

(** [task_status(request, task_id)]. In the branch of a return value
    that is not a success payload, [result.get] is called without a test of
    its type: the [AttributeError] of a non-dictionary is handled by
    nobody. *)
Definition task_status (task_id : string) (w : World) : res Response :=
  let task_result := AsyncResult_of task_id w in
  let response_data : gmap string pyval :=
    {[ "task_id" := VStr task_id;
       "status" := VStr (ar_status task_result) ]} in
  if ar_ready task_result then
    match task_result with
    | Succeeded result =>
        if is_success_payload result then
          Ok (respond (<["result" := result]> response_data) HTTP_200_OK)
        else
          res_bind (py_get result "error") (fun e =>
            Ok (respond (<["error" := default (VStr "Unknown error") e]>
                           (<["status" := VStr "FAILURE"]> response_data))
                  HTTP_200_OK))
    | Failed exc | Revoked exc =>
        Ok (respond (<["error" := VStr exc]>
                       (<["status" := VStr "FAILURE"]> response_data))
              HTTP_200_OK)
    | Unready _ => Ok (respond response_data HTTP_200_OK)
    end
  else Ok (respond response_data HTTP_200_OK).

(** [quick_process(request)] *)
Definition quick_process (rq : RequestData) : M Response :=
  match AudioProcessRequestSerializer rq with
  | inr errors => ret (respond errors HTTP_400_BAD_REQUEST)
  | inl vd =>
      let audio_file := v_audio vd in
      let scheme := v_scheme vd in
      let shots := v_shots vd in
      try_catch
        (let* (d, sample_rate) := lift (librosa_load audio_file) in
         let d := to_scheme_layout scheme d in
         if (2048 <? len d)%Z then
           ret (respond {[ "error" := VStr "Audio too long for quick processing. Use /process/ endpoint." ]}
                  HTTP_400_BAD_REQUEST)
         else
           let* qa_scheme :=
             try_catch
               (let* s := lift (load_scheme scheme) in
                match s with
                | None => raise ("Scheme '" +:+ scheme
                                   +:+ "' is not implemented in quantumaudio")
                | Some h => ret h
                end)
               (fun scheme_error =>
                  raise ("Scheme '" +:+ scheme +:+ "' is not available: "
                           +:+ scheme_error)) in
           let* processed := quantumaudio_stream d qa_scheme shots in
           let num_samples :=
             if (1 <? ndim processed)%Z then shape_last processed
             else len processed in
           ret (respond {[ "audio" := pylist_val (tolist processed);
                           "sample_rate" := VInt sample_rate;
                           "samples" := VInt num_samples ]}
                  HTTP_200_OK))%M
        (fun e => ret (respond {[ "error" := VStr e ]}
                         HTTP_500_INTERNAL_SERVER_ERROR))
  end.

End Core.

Arguments quantumaudio_stream {Scheme} stream d s shots w.
Arguments process_quantum_audio_body {Scheme} load_scheme stream a w.
Arguments process_quantum_audio {Scheme} load_scheme stream a w.
Arguments worker_step {Scheme} load_scheme stream w.
Arguments worker_run {Scheme} load_scheme stream n w.
Arguments quick_process {Scheme} librosa_load load_scheme stream rq w.

(** The payload of a failed task. *)
Definition error_payload (msg : string) : gmap string pyval :=
  {[ "status" := VStr "error"; "error" := VStr msg ]}.

(** The two shapes of a task payload. *)
Definition structured (payload : gmap string pyval) : Prop :=
  (payload !! "status" = Some (VStr "success")
   /\ is_Some (payload !! "audio") /\ is_Some (payload !! "metadata"))
  \/ (exists msg, payload = error_payload msg).

Section TaskFailure.

Variable Scheme : Type.
Variable load_scheme : string -> res (option Scheme).
Variable stream : ndarray -> Scheme -> Z -> res ndarray.

(** The ways in which the body of [process_quantum_audio] raises, each with
    the text of the exception: the data is no array, the scheme does not
    load, the transform raises, or the duration divides by zero. *)
Inductive task_failure (a : TaskArgs) : string -> Prop :=
  | fail_array m :
      np_array (t_audio_data a) = Raise m ->
      task_failure a m
  | fail_scheme_none d :
      np_array (t_audio_data a) = Ok d ->
      load_scheme (t_scheme a) = Ok None ->
      task_failure a
        ("Scheme '" +:+ t_scheme a
           +:+ "' is not available or not implemented: "
           +:+ ("Scheme '" +:+ t_scheme a
                  +:+ "' returned None - may not be implemented"))
  | fail_scheme_raise d m :
      np_array (t_audio_data a) = Ok d ->
      load_scheme (t_scheme a) = Raise m ->
      task_failure a
        ("Scheme '" +:+ t_scheme a
           +:+ "' is not available or not implemented: " +:+ m)
  | fail_transform d h m :
      np_array (t_audio_data a) = Ok d ->
      load_scheme (t_scheme a) = Ok (Some h) ->
      stream d h (t_shots a) = Raise m ->
      task_failure a m
  | fail_duration d h out m :
      np_array (t_audio_data a) = Ok d ->
      load_scheme (t_scheme a) = Ok (Some h) ->
      stream d h (t_shots a) = Ok out ->
      true_div (len (np_clip out (-1) 1)) (t_sample_rate a) = Raise m ->
      task_failure a m.

End TaskFailure.

Arguments task_failure {Scheme} load_scheme stream a _.

(** ** models.py and the patch endpoints *)

Module PatchStore.

(** A row of the [QuantumPatch] table. *)
Record QuantumPatch : Type := {
  name : string;
  description : string;
  scheme : string;
  shots : Z;
  buffer_size : Z;
  parameters : pyval;
  created_at : nat;
  updated_at : nat
}.

(** The body of a write request, field by field, absent or present, after
    the serializer fields have parsed their input. [id], [created_at] and
    [updated_at] are not writable. *)
Record PatchData : Type := {
  d_name : option string;
  d_description : option string;
  d_scheme : option string;
  d_shots : option Z;
  d_buffer_size : option Z;
  d_parameters : option pyval
}.

(** The two tables and the clock. Primary keys are handed out in order and
    never reused. *)
Record Store : Type := {
  rows : gmap Z QuantumPatch;
  next_pk : Z;
  clock : nat;
  samples : list ProcessedSample
}.

Definition empty_store : Store :=
  {| rows := ∅; next_pk := 1; clock := 0; samples := [] |}.

(** [unique=True]: some row other than the instance being written has the
    name. *)
Definition name_taken (t : gmap Z QuantumPatch) (instance : option Z)
    (s : string) : bool :=
  existsb (fun kp => String.eqb (name (snd kp)) s
                     && negb (bool_decide (instance = Some (fst kp))))
          (map_to_list t).

(** [name = CharField(max_length=100, unique=True)]: required unless the
    update is partial and not blank; then both validators run, the length
    and the uniqueness. *)
Definition validate_name (t : gmap Z QuantumPatch) (instance : option Z)
    (partial : bool) (o : option string) : field (option string) :=
  match o with
  | None => if partial then inl None else inr ["required"]
  | Some s =>
      if String.eqb s "" then inr ["blank"]
      else
        match app (if (100 <? Z.of_nat (String.length s))%Z
                   then ["max_length"] else [])
                  (if name_taken t instance s then ["unique"] else []) with
        | [] => inl (Some s)
        | codes => inr codes
        end
  end.

(** [scheme = CharField(max_length=10, choices=SCHEME_CHOICES, ...)] *)
Definition validate_scheme (o : option string) : field (option string) :=
  match o with
  | None => inl None
  | Some s => if str_in s SCHEME_CHOICES then inl (Some s)
              else inr ["invalid_choice"]
  end.

(** [shots = IntegerField(default=4000, validators=[MinValueValidator(1000),
    MaxValueValidator(8000)])]: both validators run. *)
Definition validate_shots (o : option Z) : field (option Z) :=
  match o with
  | None => inl None
  | Some n =>
      match app (if (n <? 1000)%Z then ["min_value"] else [])
                (if (8000 <? n)%Z then ["max_value"] else []) with
      | [] => inl (Some n)
      | codes => inr codes
      end
  end.

(** The bounds of an integer column. The model field takes them from the
    database backend and validates against them; these are the 64-bit
    bounds of SQLite, the backend Django sets up by default (a backend with
    32-bit integer columns has narrower ones). *)
Definition integer_field_min : Z := -9223372036854775808.
Definition integer_field_max : Z := 9223372036854775807.

(** [buffer_size = IntegerField(default=256)]: no validators of its own,
    but those of the integer column. *)
Definition validate_buffer_size (o : option Z) : field (option Z) :=
  match o with
  | None => inl None
  | Some n =>
      match app (if (n <? integer_field_min)%Z then ["min_value"] else [])
                (if (integer_field_max <? n)%Z then ["max_value"] else []) with
      | [] => inl (Some n)
      | codes => inr codes
      end
  end.

(** The fields of a write that passed validation. *)
Record CleanData : Type := {
  c_name : option string;
  c_description : option string;
  c_scheme : option string;
  c_shots : option Z;
  c_buffer_size : option Z;
  c_parameters : option pyval
}.

(** [QuantumPatchSerializer(instance, data=d, partial=...)] *)
Definition QuantumPatchSerializer (t : gmap Z QuantumPatch)
    (instance : option Z) (partial : bool) (d : PatchData)
    : CleanData + gmap string pyval :=
  let n := validate_name t instance partial (d_name d) in
  let s := validate_scheme (d_scheme d) in
  let h := validate_shots (d_shots d) in
  let b := validate_buffer_size (d_buffer_size d) in
  match n, s, h, b with
  | inl nm, inl sc, inl sh, inl bs =>
      inl {| c_name := nm; c_description := d_description d;
             c_scheme := sc; c_shots := sh;
             c_buffer_size := bs;
             c_parameters := d_parameters d |}
  | _, _, _, _ =>
      inr (add_error "name" n (add_error "scheme" s (add_error "shots" h
            (add_error "buffer_size" b ∅))))
  end.

(** The row as the API shows it. *)
Definition to_representation (pk : Z) (p : QuantumPatch) : gmap string pyval :=
  {[ "id" := VInt pk; "name" := VStr (name p);
     "description" := VStr (description p); "scheme" := VStr (scheme p);
     "shots" := VInt (shots p); "buffer_size" := VInt (buffer_size p);
     "parameters" := parameters p;
     "created_at" := VInt (Z.of_nat (created_at p));
     "updated_at" := VInt (Z.of_nat (updated_at p)) ]}.

(** A new row: the model defaults where the request is silent.
    [auto_now_add] and [auto_now] each read the clock when the row is
    saved, one after the other. *)
Definition new_row (now : nat) (c : CleanData) : QuantumPatch :=
  {| name := default "" (c_name c);
     description := default "" (c_description c);
     scheme := default "qpam" (c_scheme c);
     shots := default 4000 (c_shots c);
     buffer_size := default 256 (c_buffer_size c);
     parameters := default (VDict ∅) (c_parameters c);
     created_at := now; updated_at := S now |}.

(** An existing row with the validated fields assigned. *)
Definition assign (now : nat) (c : CleanData) (p : QuantumPatch) : QuantumPatch :=
  {| name := default (name p) (c_name c);
     description := default (description p) (c_description c);
     scheme := default (scheme p) (c_scheme c);
     shots := default (shots p) (c_shots c);
     buffer_size := default (buffer_size p) (c_buffer_size c);
     parameters := default (parameters p) (c_parameters c);
     created_at := created_at p; updated_at := now |}.

(** [POST /patches/] *)
Definition create (d : PatchData) (st : Store) : Response * Store :=
  match QuantumPatchSerializer (rows st) None false d with
  | inr errors => (respond errors 400, st)
  | inl c =>
      let pk := next_pk st in
      let p := new_row (clock st) c in
      (respond (to_representation pk p) 201,
       {| rows := <[pk := p]> (rows st); next_pk := (pk + 1)%Z;
          clock := S (S (clock st)); samples := samples st |})
  end.

(** [PUT /patches/pk/] and, with [partial], [PATCH /patches/pk/] *)
Definition update (partial : bool) (pk : Z) (d : PatchData) (st : Store)
    : Response * Store :=
  match rows st !! pk with
  | None => (respond {[ "detail" := VStr "Not found." ]} 404, st)
  | Some p =>
      match QuantumPatchSerializer (rows st) (Some pk) partial d with
      | inr errors => (respond errors 400, st)
      | inl c =>
          let p' := assign (clock st) c p in
          (respond (to_representation pk p') 200,
           {| rows := <[pk := p']> (rows st); next_pk := next_pk st;
              clock := S (clock st); samples := samples st |})
      end
  end.

(** [DELETE /patches/pk/]: the cached samples of the patch go with it
    ([on_delete=CASCADE]). *)
Definition destroy (pk : Z) (st : Store) : Response * Store :=
  match rows st !! pk with
  | None => (respond {[ "detail" := VStr "Not found." ]} 404, st)
  | Some _ =>
      ({| data := VNone; status_code := 204 |},
       {| rows := delete pk (rows st); next_pk := next_pk st;
          clock := clock st;
          samples := filter (fun ps => ps_patch ps ≠ pk) (samples st) |})
  end.

(** A write request. *)
Inductive op : Type :=
  | Create (d : PatchData) : op
  | Update (partial : bool) (pk : Z) (d : PatchData) : op
  | Destroy (pk : Z) : op.

Definition step (o : op) (st : Store) : Response * Store :=
  match o with
  | Create d => create d st
  | Update partial pk d => update partial pk d st
  | Destroy pk => destroy pk st
  end.

(** The store after a history of requests, oldest first. *)
Definition run (ops : list op) (st : Store) : Store :=
  fold_left (fun s o => snd (step o s)) ops st.

(** No two rows share a name. *)
Definition names_unique (t : gmap Z QuantumPatch) : Prop :=
  forall i j p q, t !! i = Some p -> t !! j = Some q -> name p = name q -> i = j.

(** Every stored shot count is within the declared range. *)
Definition shots_in_range (t : gmap Z QuantumPatch) : Prop :=
  forall i p, t !! i = Some p -> (1000 <= shots p <= 8000)%Z.

(** [GET /patches/pk/] *)
Definition retrieve (pk : Z) (st : Store) : Response :=
  match rows st !! pk with
  | None => respond {[ "detail" := VStr "Not found." ]} 404
  | Some p => respond (to_representation pk p) 200
  end.

(** Every primary key in use is below the next one to hand out. *)
Definition pks_below_next (st : Store) : Prop :=
  forall k, is_Some (rows st !! k) -> (k < next_pk st)%Z.

(** The invariant of the table. *)
Definition store_ok (st : Store) : Prop :=
  names_unique (rows st) /\ shots_in_range (rows st).

(** The write names a row other than [instance] by its name. *)
Definition duplicate_name (t : gmap Z QuantumPatch) (instance : option Z)
    (d : PatchData) : Prop :=
  exists s, d_name d = Some s /\ name_taken t instance s = true.

(** The write carries a shot count outside [[1000, 8000]]. *)
Definition shots_out_of_range (d : PatchData) : Prop :=
  exists n, d_shots d = Some n /\ (n < 1000 \/ 8000 < n)%Z.

End PatchStore.

(** ** Concrete collaborators, to run the code on examples *)

Module Demo.

(** A codec that decodes every upload to the clip [d] at rate [sr]. *)
Definition codec (d : ndarray) (sr : Z) : list Byte.byte -> res (ndarray * Z) :=
  fun _ => Ok (d, sr).

(** A codec that recognises nothing. *)
Definition broken_codec : list Byte.byte -> res (ndarray * Z) :=
  fun _ => Raise "Format not recognised.".

(** A registry whose handle for a known scheme is its name. *)
Definition registry (s : string) : res (option string) :=
  if str_in s SCHEME_CHOICES then Ok (Some s) else Ok None.

(** A transform that multiplies every sample by [g]. *)
Definition gain (g : Q) : ndarray -> string -> Z -> res ndarray :=
  fun d _ _ =>
    Ok match d with
       | Arr1 xs => Arr1 (map (Qmult g) xs)
       | Arr2 rows => Arr2 (map (map (Qmult g)) rows)
       end.

(** A transform that fails on every clip. *)
Definition failing : ndarray -> string -> Z -> res ndarray :=
  fun _ _ _ => Raise "circuit too deep".

(** An upload of three bytes. *)
Definition upload : list Byte.byte := [Byte.x52; Byte.x49; Byte.x46].

(** A request that carries only the upload. *)
Definition bare : RequestData :=
  {| rq_audio := Some upload; rq_scheme := None; rq_shots := None;
     rq_buffer_size := None; rq_use_patch := None |}.

End Demo.

(** The request [rq] with another [buffer_size] field. *)
Definition with_buffer_size (b : option Z) (rq : RequestData) : RequestData :=
  {| rq_audio := rq_audio rq; rq_scheme := rq_scheme rq;
     rq_shots := rq_shots rq; rq_buffer_size := b;
     rq_use_patch := rq_use_patch rq |}.

(** The request [rq] with another [use_patch] field. *)
Definition with_use_patch (u : option raw_int) (rq : RequestData) : RequestData :=
  {| rq_audio := rq_audio rq; rq_scheme := rq_scheme rq;
     rq_shots := rq_shots rq; rq_buffer_size := rq_buffer_size rq;
     rq_use_patch := u |}.

(** A [buffer_size] field the serializer lets through: absent, or within
    the declared bounds. *)
Definition passes_buffer_size (o : option Z) : Prop :=
  match o with
  | None => True
  | Some b => (128 <= b <= 1024)%Z
  end.

(** ** The inputs of the examples *)

Module CacheExample.

(** A table that already holds a sample for patch 1. *)
Definition cached : ProcessedSample :=
  {| ps_patch := 1; ps_input_hash := "9f86d081884c7d65";
     ps_output_audio := [Byte.x00]; ps_sample_rate := 22050;
     ps_duration := 1#22050 |}.

Definition w0 : World := set_processed_samples [cached] empty_world.

(** The request of the scenario: the upload, with [use_patch=1]. *)
Definition rq : RequestData := with_use_patch (Some (RInt 1)) Demo.bare.

Definition decode := Demo.codec (Arr1 [1#2]) 22050.

(** The job both submissions queue. *)
Definition job : TaskArgs :=
  {| t_audio_data := L1 [1#2]; t_scheme := "qpam"; t_shots := 4000;
     t_buffer_size := 256; t_sample_rate := 22050 |}.

End CacheExample.

Module EmptyClip.

(** A codec that decodes the upload to a mono clip of no samples. *)
Definition decode := Demo.codec (Arr1 []) 22050.

Definition vd : ValidatedData :=
  {| v_audio := Demo.upload; v_scheme := "qpam"; v_shots := 4000;
     v_buffer_size := 256; v_use_patch := None |}.

End EmptyClip.

Module Loud.

(** A one-sample clip, and a transform that doubles it. *)
Definition decode := Demo.codec (Arr1 [3#4]) 22050.
Definition transform := Demo.gain 2.

Definition job : TaskArgs :=
  {| t_audio_data := L1 [3#4]; t_scheme := "qpam"; t_shots := 4000;
     t_buffer_size := 256; t_sample_rate := 22050 |}.

End Loud.

Module Stereo.

(** Two channels of 2049 samples each. *)
Definition clip : ndarray := Arr2 [repeat 0%Q 2049; repeat 0%Q 2049].
Definition decode := Demo.codec clip 44100.

(** The request: the upload, for the multi-channel scheme mqsm. *)
Definition rq : RequestData :=
  {| rq_audio := Some Demo.upload; rq_scheme := Some "mqsm"; rq_shots := None;
     rq_buffer_size := None; rq_use_patch := None |}.

End Stereo.

Module PatchExample.
Import PatchStore.

(** The patch of the end-to-end scenario. *)
Definition p1 : PatchData :=
  {| d_name := Some "p1"; d_description := None; d_scheme := Some "qpam";
     d_shots := Some 4000; d_buffer_size := Some 256; d_parameters := None |}.

(** Another patch, with a shot count below the range. *)
Definition p2_low : PatchData :=
  {| d_name := Some "p2"; d_description := None; d_scheme := None;
     d_shots := Some 999; d_buffer_size := None; d_parameters := None |}.

Definition st1 : Store := run [Create p1] empty_store.

End PatchExample.

(** ** tasks.py, the file task *)

(** The element type of an array read from a file. *)
Inductive dtype : Type :=
  | Float64 : dtype
  | Float32 : dtype
  | Int16 : dtype
  | Int32 : dtype.

(** An array with its element type. *)
Record typed_array : Type := {
  ta_dtype : dtype;
  ta_data : ndarray
}.

(** [a.T] of a two-dimensional array. *)
Definition transpose (rows : list (list Q)) : list (list Q) :=
  map (fun i => map (fun r => nth i r 0%Q) rows) (seq 0 (length (hd [] rows))).

(** [np.mean(a, axis=1)] of a (frames, channels) array: the average of
    each frame. *)
Definition np_mean_axis1 (rows : list (list Q)) : list Q :=
  map (fun r => (Qsum r / inject_Z (Z.of_nat (length r)))%Q) rows.

(** The element type of [np.mean]: an integer array averages to float64, a
    float array keeps its type. *)
Definition mean_dtype (t : dtype) : dtype :=
  match t with
  | Int16 | Int32 => Float64
  | _ => t
  end.

(** [a.astype(np.float32) / k] *)
Definition scale_down (k : Q) (a : ndarray) : ndarray :=
  match a with
  | Arr1 xs => Arr1 (map (fun x => (x / k)%Q) xs)
  | Arr2 rows => Arr2 (map (map (fun x => (x / k)%Q)) rows)
  end.

(** The channel handling of [process_audio_file]: a two-dimensional clip,
    which the reader returns as (frames, channels), is transposed for a
    multi-channel scheme and averaged frame by frame otherwise. *)
Definition file_layout (scheme : string) (a : typed_array) : typed_array :=
  match ta_data a with
  | Arr1 _ => a
  | Arr2 rows =>
      if str_in scheme ["mqsm"; "msqpam"]
      then {| ta_dtype := ta_dtype a; ta_data := Arr2 (transpose rows) |}
      else {| ta_dtype := mean_dtype (ta_dtype a);
              ta_data := Arr1 (np_mean_axis1 rows) |}
  end.

(** The normalisation of [process_audio_file]: data that is still 16-bit or
    32-bit integer is divided by the magnitude of its type. *)
Definition file_normalize (a : typed_array) : typed_array :=
  match ta_dtype a with
  | Int16 => {| ta_dtype := Float32; ta_data := scale_down 32768 (ta_data a) |}
  | Int32 => {| ta_dtype := Float32; ta_data := scale_down 2147483648 (ta_data a) |}
  | _ => a
  end.

(** [try: body except Exception as e: handler(str(e))], without state. *)
Definition res_catch {A} (body : res A) (handler : string -> res A) : res A :=
  match body with
  | Ok a => Ok a
  | Raise m => handler m
  end.

Section FileTask.

Variable Scheme : Type.

(** The encoded form of a clip, as [scheme.encode] returns it. *)
Variable Circuit : Type.

(** [sf.read(path)]: the samples, with their type, and the sample rate. *)
Variable sf_read : string -> res (typed_array * Z).

Variable load_scheme : string -> res (option Scheme).

(** [quantumaudio.stream(data, scheme=s, buffer_size=b, shots=n)]; the
    scheme is passed on as loaded, [None] included. *)
Variable stream_buffered : ndarray -> option Scheme -> Z -> Z -> res ndarray.

(** [s.encode(data)] and [s.decode(circuit, shots=n)] *)
Variable encode : Scheme -> ndarray -> res Circuit.
Variable decode : Scheme -> Circuit -> Z -> res ndarray.

(** The transform step of [process_audio_file]: the streaming form for
    data longer than the buffer, one encode and decode otherwise. *)
Definition file_transform (d : ndarray) (qa_scheme : option Scheme)
    (shots buffer_size : Z) : res ndarray :=
  if (buffer_size <? len d)%Z then stream_buffered d qa_scheme buffer_size shots
  else
    match qa_scheme with
    | None => Raise "'NoneType' object has no attribute 'encode'"
    | Some h => res_bind (encode h d) (fun circuit => decode h circuit shots)
    end.

(** [process_audio_file(audio_file_path, scheme, shots, buffer_size)] *)
Definition process_audio_file (audio_file_path scheme : string)
    (shots buffer_size : Z) : res (gmap string pyval) :=
  res_catch
    (res_bind (sf_read audio_file_path) (fun '(a, sample_rate) =>
     let a := file_normalize (file_layout scheme a) in
     res_bind (load_scheme scheme) (fun qa_scheme =>
     res_bind (file_transform (ta_data a) qa_scheme shots buffer_size)
       (fun processed =>
     res_bind (true_div (len processed) sample_rate) (fun duration =>
     Ok ({[ "status" := VStr "success";
            "audio" := pylist_val (tolist processed);
            "metadata" := VDict {[ "scheme" := VStr scheme;
                                   "shots" := VInt shots;
                                   "sample_rate" := VInt sample_rate;
                                   "samples" := VInt (len processed);
                                   "duration" := VFloat duration ]} ]}
           : gmap string pyval))))))
    (fun e => Ok ({[ "status" := VStr "error"; "error" := VStr e ]}
                    : gmap string pyval)).

End FileTask.

Arguments file_transform {Scheme Circuit} stream_buffered encode decode
  d qa_scheme shots buffer_size.
Arguments process_audio_file {Scheme Circuit} sf_read load_scheme
  stream_buffered encode decode audio_file_path scheme shots buffer_size.

(** ** Predicates on inputs *)

(** What the request serializer asks of a request. *)
Definition well_formed_request (rq : RequestData) : Prop :=
  (exists b, rq_audio rq = Some b /\ b <> [])
  /\ (forall s, rq_scheme rq = Some s -> s = "" \/ s ∈ SCHEME_CHOICES)
  /\ (forall n, rq_shots rq = Some n -> (1000 <= n <= 8000)%Z)
  /\ (forall b, rq_buffer_size rq = Some b -> (128 <= b <= 1024)%Z)
  /\ (forall s, rq_use_patch rq <> Some (RInvalid s)).

(** A [use_patch] the serializer lets through: absent, null or an
    integer. *)
Definition passes_use_patch (o : option raw_int) : Prop :=
  forall s, o <> Some (RInvalid s).

(** An array as the codec returns it: a two-dimensional one has at least
    one channel, and its channels have one length. *)
Definition proper_array (a : ndarray) : Prop :=
  match a with
  | Arr1 _ => True
  | Arr2 rows => rows <> [] /\ rectangular rows = true
  end.

(** Every sample is a 16-bit signed integer value. *)
Definition int16_samples (a : ndarray) : Prop :=
  Forall (fun x => (-32768 <= x /\ x <= 32767)%Q) (samples_of a).

(** A job whose parameters are within the bounds of the request
    serializer, with the buffer size of a complex scheme at 128. *)
Definition job_in_bounds (a : TaskArgs) : Prop :=
  t_scheme a ∈ SCHEME_CHOICES
  /\ (1000 <= t_shots a <= 8000)%Z
  /\ (128 <= t_buffer_size a <= 1024)%Z
  /\ (t_scheme a ∈ ["sqpam"; "qsm"; "mqsm"] -> t_buffer_size a = 128%Z).

Module FileDemo.

(** A reader that returns the clip [a] at rate [sr] for every path. *)
Definition reader (a : typed_array) (sr : Z) : string -> res (typed_array * Z) :=
  fun _ => Ok (a, sr).

(** The streaming form of a transform that multiplies by [g]. *)
Definition stream_gain (g : Q) : ndarray -> option string -> Z -> Z -> res ndarray :=
  fun d _ _ _ => Demo.gain g d "" 0%Z.

(** A scheme whose circuit is the clip itself. *)
Definition encode (s : string) (d : ndarray) : res ndarray := Ok d.
Definition decode (s : string) (c : ndarray) (shots : Z) : res ndarray := Ok c.

(** A mono clip of 16-bit samples. *)
Definition pcm16 : typed_array :=
  {| ta_dtype := Int16; ta_data := Arr1 [inject_Z 16384; inject_Z (-32768)] |}.

End FileDemo.

(** * Properties *)

(** ** The request serializer *)

Lemma validate_int_inl d lo hi o n :
  validate_int d lo hi o = inl n ->
  n = default d o /\ (o <> None -> (lo <= n <= hi)%Z).
Proof.
  unfold validate_int. destruct o as [m|]; simpl.
  - destruct (Z.ltb_spec m lo); [discriminate|].
    destruct (Z.ltb_spec hi m); [discriminate|].
    intros [= <-]. split; [reflexivity | intros _; lia].
  - intros [= <-]. split; [reflexivity | congruence].
Qed.

Lemma validate_choice_inl choices d o s :
  validate_choice choices d o = inl s ->
  s = default d o /\ (o <> None -> str_in s choices = true).
Proof.
  unfold validate_choice. destruct o as [t|]; simpl.
  - destruct (str_in t choices) eqn:E; [|discriminate].
    intros [= <-]. auto.
  - intros [= <-]. split; [reflexivity | congruence].
Qed.

Lemma form_value_default d o :
  o = Some "" \/ default d (form_value o) = default d o.
Proof.
  destruct o as [s|]; [|right; reflexivity]. unfold form_value.
  destruct (String.eqb_spec s "") as [->|Hne]; [left | right]; reflexivity.
Qed.

(** What a valid request looks like. *)
Lemma serializer_valid rq vd :
  AudioProcessRequestSerializer rq = inl vd ->
  rq_audio rq = Some (v_audio vd)
  /\ v_scheme vd = default "qpam" (form_value (rq_scheme rq))
  /\ v_shots vd = default 4000 (rq_shots rq)
  /\ v_buffer_size vd = default 256 (rq_buffer_size rq)
  /\ validate_use_patch (rq_use_patch rq) = inl (v_use_patch vd)
  /\ str_in (v_scheme vd) SCHEME_CHOICES = true
  /\ (128 <= v_buffer_size vd <= 1024)%Z.
Proof.
  unfold AudioProcessRequestSerializer.
  destruct (validate_audio (rq_audio rq)) as [a|ea] eqn:Ha;
    destruct (validate_choice _ _ _) as [s|es] eqn:Hs;
    destruct (validate_int 4000 _ _ _) as [n|en] eqn:Hn;
    destruct (validate_int 256 _ _ _) as [b|eb] eqn:Hb;
    destruct (validate_use_patch _) as [u|eu] eqn:Hu;
    try discriminate.
  intros [= <-]. simpl.
  apply validate_choice_inl in Hs as [Hs1 Hs2].
  apply validate_int_inl in Hn as [Hn1 _].
  apply validate_int_inl in Hb as [Hb1 Hb2].
  repeat split; auto.
  - unfold validate_audio in Ha.
    destruct (rq_audio rq) as [[|x l]|]; congruence.
  - destruct (form_value (rq_scheme rq)); [apply Hs2; congruence|].
    subst s. reflexivity.
  - destruct (rq_buffer_size rq); [apply Hb2; congruence | subst b; simpl; lia].
  - destruct (rq_buffer_size rq); [apply Hb2; congruence | subst b; simpl; lia].
Qed.

(** An out-of-range [buffer_size] makes the request invalid, whatever the
    other fields are, and is named in the errors. *)
Lemma serializer_buffer_size_invalid rq b :
  rq_buffer_size rq = Some b -> (b < 128 \/ 1024 < b)%Z ->
  exists errs, AudioProcessRequestSerializer rq = inr errs
               /\ is_Some (errs !! "buffer_size").
Proof.
  intros Hb Hr. unfold AudioProcessRequestSerializer. rewrite Hb.
  assert (exists codes, validate_int 256 128 1024 (Some b) = inr codes) as [codes Hc].
  { unfold validate_int. destruct (Z.ltb_spec b 128); [eauto|].
    destruct (Z.ltb_spec 1024 b); [eauto | lia]. }
  rewrite Hc.
  exists (add_error "audio" (validate_audio (rq_audio rq))
            (add_error "scheme"
               (validate_choice SCHEME_CHOICES "qpam" (form_value (rq_scheme rq)))
               (add_error "shots" (validate_int 4000 1000 8000 (rq_shots rq))
                  (add_error "buffer_size" (@inr Z _ codes)
                     (add_error "use_patch"
                        (validate_use_patch (rq_use_patch rq)) ∅))))).
  destruct (validate_audio _), (validate_choice _ _ _), (validate_int 4000 _ _ _),
    (validate_use_patch _);
    (split; [reflexivity|]); simpl;
    rewrite ?lookup_insert_ne by done; rewrite lookup_insert_eq; eauto.
Qed.

(** ** The endpoints, for arbitrary collaborators *)

Section Endpoints.

Context {Scheme : Type}.
Variable librosa_load : list Byte.byte -> res (ndarray * Z).
Variable load_scheme : string -> res (option Scheme).
Variable stream : ndarray -> Scheme -> Z -> res ndarray.

(** An invalid request is answered 400 by both endpoints and touches
    nothing. *)
Lemma invalid_request rq errs w :
  AudioProcessRequestSerializer rq = inr errs ->
  process_audio librosa_load rq w = (Ok (respond errs 400), w)
  /\ quick_process librosa_load load_scheme stream rq w
     = (Ok (respond errs 400), w).
Proof.
  intros H. unfold process_audio, quick_process. rewrite H. split; reflexivity.
Qed.

(** What [process_audio] does with a valid request whose upload decodes:
    one job is queued under a fresh id, and the id is returned. *)
Lemma process_audio_accepts rq vd d sr w :
  AudioProcessRequestSerializer rq = inl vd ->
  librosa_load (v_audio vd) = Ok (d, sr) ->
  let id := pretty (next_id w) in
  let a := {| t_audio_data := tolist (to_scheme_layout (v_scheme vd) d);
              t_scheme := v_scheme vd; t_shots := v_shots vd;
              t_buffer_size := tuned_buffer_size (v_scheme vd) (v_buffer_size vd);
              t_sample_rate := sr |} in
  process_audio librosa_load rq w
  = (Ok (respond {[ "task_id" := VStr id; "status" := VStr "processing";
                    "message" := VStr "Audio processing started" ]} 200),
     set_queue (queue w ++ [(id, a)]) (set_next_id (S (next_id w)) w)).
Proof.
  intros Hv Hl. unfold process_audio. rewrite Hv.
  unfold try_catch, bind, lift. rewrite Hl. reflexivity.
Qed.

(** What [process_audio] does when the upload does not decode. *)
Lemma process_audio_undecodable rq vd m w :
  AudioProcessRequestSerializer rq = inl vd ->
  librosa_load (v_audio vd) = Raise m ->
  process_audio librosa_load rq w
  = (Ok (respond {[ "error" := VStr m ]} 500), w).
Proof.
  intros Hv Hl. unfold process_audio. rewrite Hv.
  unfold try_catch, bind, lift. rewrite Hl. reflexivity.
Qed.

(** C9. Both processing endpoints answer HTTP 400, with an error for the
    [buffer_size] field, to every request whose [buffer_size] is below 128
    or above 1024; nothing is decoded, queued or transformed. *)
Theorem buffer_size_out_of_bounds_rejected rq b w :
  rq_buffer_size rq = Some b -> (b < 128 \/ 1024 < b)%Z ->
  exists errs,
    is_Some (errs !! "buffer_size")
    /\ process_audio librosa_load rq w
       = (Ok (respond errs HTTP_400_BAD_REQUEST), w)
    /\ quick_process librosa_load load_scheme stream rq w
       = (Ok (respond errs HTTP_400_BAD_REQUEST), w).
Proof.
  intros Hb Hr.
  destruct (serializer_buffer_size_invalid rq b Hb Hr) as (errs & He & Hk).
  exists errs. split; [exact Hk|]. apply invalid_request, He.
Qed.

(** C6. For a request that [process_audio] accepts, the buffer size handed
    to the task is [min(requested, 128)] when the scheme is one of sqpam,
    qsm, mqsm (so exactly 128 when more than 128 was requested) and the
    requested value itself when the scheme is qpam or msqpam; an absent
    [buffer_size] counts as 256, an absent scheme as qpam. *)
Theorem effective_buffer_size rq vd d sr w :
  AudioProcessRequestSerializer rq = inl vd ->
  librosa_load (v_audio vd) = Ok (d, sr) ->
  let scheme := default "qpam" (rq_scheme rq) in
  let requested := default 256 (rq_buffer_size rq) in
  exists id a,
    queue (snd (process_audio librosa_load rq w)) = (queue w ++ [(id, a)])%list
    /\ (scheme ∈ ["sqpam"; "qsm"; "mqsm"] ->
        t_buffer_size a = Z.min requested 128
        /\ (128 < requested -> t_buffer_size a = 128)%Z)
    /\ (scheme ∈ ["qpam"; "msqpam"] -> t_buffer_size a = requested)
    /\ t_scheme a = v_scheme vd
    /\ (v_scheme vd ∈ ["sqpam"; "qsm"; "mqsm"] ->
        t_buffer_size a = Z.min requested 128)
    /\ (v_scheme vd ∈ ["qpam"; "msqpam"] -> t_buffer_size a = requested).
Proof.
  intros Hv Hl scheme requested.
  rewrite (process_audio_accepts rq vd d sr w Hv Hl). simpl.
  destruct (serializer_valid rq vd Hv) as (_ & Hs & _ & Hb & _).
  fold requested in Hb. rewrite Hb.
  assert (forall x, x ∈ ["sqpam"; "qsm"; "mqsm"] ->
                    tuned_buffer_size x requested = Z.min requested 128) as Hc.
  { intros x Hin. unfold tuned_buffer_size.
    set_unfold in Hin. destruct Hin as [->|[->|[->|[]]]]; reflexivity. }
  assert (forall x, x ∈ ["qpam"; "msqpam"] ->
                    tuned_buffer_size x requested = requested) as Hp.
  { intros x Hin. unfold tuned_buffer_size.
    set_unfold in Hin. destruct Hin as [->|[->|[]]]; reflexivity. }
  assert (scheme <> "" -> v_scheme vd = scheme) as Hres.
  { intros Hne. rewrite Hs.
    destruct (form_value_default "qpam" (rq_scheme rq)) as [He|He]; [|exact He].
    exfalso. apply Hne. unfold scheme. rewrite He. reflexivity. }
  eexists _, _. split; [reflexivity|]. simpl.
  split; [|split; [|split; [|split]]].
  - intros Hin. rewrite Hres by (intros E; rewrite E in Hin; apply list_elem_of_In in Hin;
              simpl in Hin;
              repeat (destruct Hin as [Hin|Hin]; [discriminate Hin|]);
              exact Hin).
    rewrite (Hc _ Hin). split; [reflexivity | lia].
  - intros Hin. rewrite Hres by (intros E; rewrite E in Hin; apply list_elem_of_In in Hin;
              simpl in Hin;
              repeat (destruct Hin as [Hin|Hin]; [discriminate Hin|]);
              exact Hin).
    apply Hp, Hin.
  - reflexivity.
  - apply Hc.
  - apply Hp.
Qed.

End Endpoints.

(** A request with scheme qsm and [buffer_size] 512 is queued with buffer
    size 128; the same with scheme msqpam keeps 512. *)
Lemma effective_buffer_size_witness :
  (exists id a,
     queue (snd (process_audio (Demo.codec (Arr1 [0%Q]) 22050)
                   {| rq_audio := Some Demo.upload; rq_scheme := Some "qsm";
                      rq_shots := None; rq_buffer_size := Some 512;
                      rq_use_patch := None |} empty_world))
     = ([] ++ [(id, a)])%list
     /\ ("qsm" ∈ ["sqpam"; "qsm"; "mqsm"] ->
         t_buffer_size a = Z.min 512 128
         /\ (128 < 512 -> t_buffer_size a = 128)%Z)
     /\ ("qsm" ∈ ["qpam"; "msqpam"] -> t_buffer_size a = 512)).
Proof.
  destruct (effective_buffer_size (Demo.codec (Arr1 [0%Q]) 22050)
              {| rq_audio := Some Demo.upload; rq_scheme := Some "qsm";
                 rq_shots := None; rq_buffer_size := Some 512;
                 rq_use_patch := None |}
              {| v_audio := Demo.upload; v_scheme := "qsm"; v_shots := 4000;
                 v_buffer_size := 512; v_use_patch := None |}
              (Arr1 [0%Q]) 22050 empty_world eq_refl eq_refl)
    as (id & a & Hq & H1 & H2 & _).
  exists id, a. split; [exact Hq|]. split; [exact H1 | exact H2].
Defined.

(** A request with [buffer_size] 64 is rejected by both endpoints. *)
Lemma buffer_size_out_of_bounds_witness :
  exists errs,
    is_Some (errs !! "buffer_size")
    /\ process_audio (Demo.codec (Arr1 [0%Q]) 22050)
         (with_buffer_size (Some 64) Demo.bare) empty_world
       = (Ok (respond errs HTTP_400_BAD_REQUEST), empty_world)
    /\ quick_process (Demo.codec (Arr1 [0%Q]) 22050) Demo.registry (Demo.gain 1)
         (with_buffer_size (Some 64) Demo.bare) empty_world
       = (Ok (respond errs HTTP_400_BAD_REQUEST), empty_world).
Proof.
  apply (buffer_size_out_of_bounds_rejected _ _ _
           (with_buffer_size (Some 64) Demo.bare) 64 empty_world);
    [reflexivity | left; lia].
Defined.

(** ** Clipping *)

Lemma clip1_range x : (-1 <= clip1 (-1) 1 x /\ clip1 (-1) 1 x <= 1)%Q.
Proof.
  unfold clip1. split.
  - apply Q.min_glb; [discriminate | apply Q.le_max_r].
  - apply Q.le_min_l.
Qed.

Lemma np_clip_in_unit_range a : in_unit_range (np_clip a (-1) 1).
Proof.
  unfold in_unit_range. destruct a as [xs|rows]; simpl.
  - induction xs as [|x xs IH]; simpl; constructor; auto using clip1_range.
  - induction rows as [|r rows IH]; simpl; [constructor|].
    apply Forall_app. split; [|exact IH].
    induction r as [|x r IHr]; simpl; constructor; auto using clip1_range.
Qed.

Lemma len_np_clip a lo hi : len (np_clip a lo hi) = len a.
Proof. destruct a; simpl; rewrite length_map; reflexivity. Qed.

(** ** The task *)

Section Task.

Context {Scheme : Type}.
Variable load_scheme : string -> res (option Scheme).
Variable stream : ndarray -> Scheme -> Z -> res ndarray.

(** The task returns in every case. Either every step went through, and
    the payload is a success that carries the clipped output of the
    transform; or some step raised, and the payload is an error that
    carries the message. *)
Lemma process_quantum_audio_cases a w :
  (exists d h out dur,
      np_array (t_audio_data a) = Ok d
      /\ load_scheme (t_scheme a) = Ok (Some h)
      /\ stream d h (t_shots a) = Ok out
      /\ true_div (len out) (t_sample_rate a) = Ok dur
      /\ exists payload,
          process_quantum_audio load_scheme stream a w
          = (Ok payload,
             set_stream_log (stream_log w ++ [{| sc_data := d; sc_shots := t_shots a |}]) w)
          /\ payload !! "status" = Some (VStr "success")
          /\ payload !! "audio" = Some (pylist_val (tolist (np_clip out (-1) 1)))
          /\ is_Some (payload !! "metadata")
          /\ payload !! "error" = None)
  \/ (exists msg w',
        process_quantum_audio load_scheme stream a w
        = (Ok (error_payload msg), w')
        /\ queue w' = queue w /\ backend w' = backend w
        /\ processed_samples w' = processed_samples w).
Proof.
  unfold process_quantum_audio, process_quantum_audio_body, try_catch, bind,
    lift, raise, ret, quantumaudio_stream.
  destruct (np_array (t_audio_data a)) as [d|m] eqn:Hd;
    [|right; eexists _, _; split; [reflexivity | auto]].
  destruct (load_scheme (t_scheme a)) as [[h|]|m] eqn:Hs;
    [| right; eexists _, _; split; [reflexivity | auto]
     | right; eexists _, _; split; [reflexivity | auto]].
  destruct (stream d h (t_shots a)) as [out|m] eqn:Ht;
    [|right; eexists _, _; split; [reflexivity | auto]].
  rewrite len_np_clip.
  destruct (true_div (len out) (t_sample_rate a)) as [dur|m] eqn:Hq;
    [|right; eexists _, _; split; [reflexivity | auto]].
  left. exists d, h, out, dur. repeat (split; [first [reflexivity | eassumption]|]).
  eexists. split; [reflexivity|].
  repeat split; try (eexists; reflexivity); reflexivity.
Qed.

End Task.

(** ** The status endpoint *)

Lemma reports_success_iff d :
  reports_success d = true <-> d !! "status" = Some (VStr "success").
Proof.
  unfold reports_success. destruct (d !! "status") as [v|]; [|split; discriminate].
  destruct v; simpl; try (split; discriminate).
  rewrite bool_decide_eq_true. split; congruence.
Qed.

(** The answer for a job that returned a dictionary which does not report
    success. *)
Lemma task_status_internal_failure task_id w d :
  backend w !! task_id = Some (Succeeded (VDict d)) ->
  reports_success d = false ->
  task_status task_id w
  = Ok (respond (<["error" := default (VStr "Unknown error") (d !! "error")]>
                   (<["status" := VStr "FAILURE"]>
                      {[ "task_id" := VStr task_id;
                         "status" := VStr "SUCCESS" ]})) 200).
Proof.
  intros Hb Hs. unfold task_status, AsyncResult_of. rewrite Hb. simpl.
  unfold is_success_payload. simpl. rewrite Hs. reflexivity.
Qed.

(** C3. A job that the executor finished as SUCCESS but whose payload
    does not carry status "success" is reported with status FAILURE, with
    the payload's error entry as the error (or "Unknown error" when it has
    none) and without a result; and whenever the answer carries a result,
    the job is a SUCCESS whose payload reports status "success", and the
    result is that payload. *)
Theorem job_status_translation task_id w :
  (forall d,
      backend w !! task_id = Some (Succeeded (VDict d)) ->
      d !! "status" <> Some (VStr "success") ->
      exists r,
        task_status task_id w = Ok r
        /\ body_get r "status" = Some (VStr "FAILURE")
        /\ body_get r "error" = Some (default (VStr "Unknown error") (d !! "error"))
        /\ (forall msg, d !! "error" = Some (VStr msg) ->
            body_get r "error" = Some (VStr msg))
        /\ body_get r "result" = None)
  /\ (forall r v,
         task_status task_id w = Ok r ->
         body_get r "result" = Some v ->
         exists d,
           backend w !! task_id = Some (Succeeded (VDict d))
           /\ d !! "status" = Some (VStr "success")
           /\ v = VDict d).
Proof.
  split.
  - intros d Hb Hs.
    assert (reports_success d = false) as Hf.
    { destruct (reports_success d) eqn:E; [|reflexivity].
      apply reports_success_iff in E. contradiction. }
    rewrite (task_status_internal_failure task_id w d Hb Hf).
    eexists. split; [reflexivity|].
    unfold body_get; simpl.
    repeat split.
    + intros msg Hm. rewrite Hm. reflexivity.
  - intros r v. unfold task_status, AsyncResult_of.
    destruct (backend w !! task_id) as [[st|result|exc|exc]|] eqn:Hb; simpl;
      try (intros [= <-]; unfold body_get; simpl; discriminate).
    destruct result as [| | | | |d];
      try discriminate.
    unfold is_success_payload. simpl.
    destruct (reports_success d) eqn:Hs.
    + intros [= <-]. unfold body_get; simpl. intros [= <-].
      exists d. repeat split. apply reports_success_iff, Hs.
    + intros [= <-]. unfold body_get; simpl. discriminate.
Qed.

(** A job that returned [None]: the endpoint raises. *)
Example task_status_non_dict :
  task_status "7" (set_backend {[ "7" := Succeeded VNone ]} empty_world)
  = Raise "object has no attribute 'get'".
Proof. reflexivity. Qed.

(** An id the backend does not know is reported as pending. *)
Example task_status_unknown :
  task_status "42" empty_world
  = Ok (respond {[ "task_id" := VStr "42"; "status" := VStr "PENDING" ]} 200).
Proof. reflexivity. Qed.

(** A job whose payload is the error dictionary of the task. *)
Lemma job_status_translation_witness :
  let w := set_backend {[ "7" := Succeeded (VDict (error_payload "boom")) ]}
             empty_world in
  exists r,
    task_status "7" w = Ok r
    /\ body_get r "status" = Some (VStr "FAILURE")
    /\ body_get r "error" = Some (VStr "boom")
    /\ (forall msg, error_payload "boom" !! "error" = Some (VStr msg) ->
        body_get r "error" = Some (VStr msg))
    /\ body_get r "result" = None.
Proof.
  intros w.
  apply (proj1 (job_status_translation "7" w) (error_payload "boom")).
  - reflexivity.
  - discriminate.
Defined.

(** ** Errors of the asynchronous path *)

Section TaskErrors.

Context {Scheme : Type}.
Variable load_scheme : string -> res (option Scheme).
Variable stream : ndarray -> Scheme -> Z -> res ndarray.

Lemma process_quantum_audio_structured a w :
  exists payload w',
    process_quantum_audio load_scheme stream a w = (Ok payload, w')
    /\ structured payload
    /\ queue w' = queue w /\ backend w' = backend w.
Proof.
  destruct (process_quantum_audio_cases load_scheme stream a w)
    as [(d & h & out & dur & _ & _ & _ & _ & payload & Hp & Hs & Ha & Hm & _)
       |(msg & w' & Hp & Hq & Hb & _)].
  - exists payload. eexists. split; [exact Hp|]. split; [|split; reflexivity].
    left. rewrite Ha. eauto.
  - exists (error_payload msg), w'. split; [exact Hp|].
    split; [right; eauto | auto].
Qed.

(** A step that raises gives the error dictionary with the text of the
    exception; the queue and the backend are as they were. *)
Lemma task_failure_payload a msg w :
  task_failure load_scheme stream a msg ->
  exists w',
    process_quantum_audio load_scheme stream a w = (Ok (error_payload msg), w')
    /\ queue w' = queue w /\ backend w' = backend w.
Proof.
  unfold process_quantum_audio, process_quantum_audio_body, try_catch, bind,
    lift, raise, ret, quantumaudio_stream.
  intros [m Hd|d Hd Hs|d m Hd Hs|d h m Hd Hs Ht|d h out m Hd Hs Ht Hq].
  - rewrite Hd. eexists. split; [reflexivity | auto].
  - rewrite Hd, Hs. eexists. split; [reflexivity | auto].
  - rewrite Hd, Hs. eexists. split; [reflexivity | auto].
  - rewrite Hd, Hs, Ht. eexists. split; [reflexivity | auto].
  - rewrite Hd, Hs, Ht, Hq. eexists. split; [reflexivity | auto].
Qed.

(** Either some step raises, or the task returns a success. *)
Lemma task_fails_or_succeeds a w :
  (exists msg, task_failure load_scheme stream a msg)
  \/ (exists payload w',
        process_quantum_audio load_scheme stream a w = (Ok payload, w')
        /\ payload !! "status" = Some (VStr "success")
        /\ is_Some (payload !! "audio") /\ is_Some (payload !! "metadata")).
Proof.
  destruct (np_array (t_audio_data a)) as [d|m] eqn:Hd;
    [|left; eexists; eapply fail_array; eassumption].
  destruct (load_scheme (t_scheme a)) as [[h|]|m] eqn:Hs;
    [| left; eexists; eapply fail_scheme_none; eassumption
     | left; eexists; eapply fail_scheme_raise; eassumption].
  destruct (stream d h (t_shots a)) as [out|m] eqn:Ht;
    [|left; eexists; eapply fail_transform; eassumption].
  destruct (true_div (len (np_clip out (-1) 1)) (t_sample_rate a)) as [dur|m] eqn:Hq;
    [|left; eexists; eapply fail_duration; eassumption].
  right.
  unfold process_quantum_audio, process_quantum_audio_body, try_catch, bind,
    lift, raise, ret, quantumaudio_stream.
  rewrite Hd, Hs, Ht, Hq. eexists _, _. split; [reflexivity|].
  repeat split; eexists; reflexivity.
Qed.

(** C7. The task returns for every input and never raises: its value is a
    dictionary with status "success", audio and metadata, or with status
    "error" and the message. Whatever step raises inside it (the data is no
    array, the scheme does not load because the loader raises or returns
    None, the transform raises, the duration divides by zero), the value is
    the error dictionary with the text of that exception; the value is a
    success only when no step raised. The executor files the dictionary
    under the job, and only the status endpoint then shows a failure: as
    FAILURE, with that text as the error and no result. *)
Theorem task_captures_errors a :
  (forall w, exists payload w',
      process_quantum_audio load_scheme stream a w = (Ok payload, w')
      /\ structured payload
      /\ (forall msg, task_failure load_scheme stream a msg ->
          payload = error_payload msg)
      /\ ((exists msg, task_failure load_scheme stream a msg)
          \/ payload !! "status" = Some (VStr "success"))
      /\ (load_scheme (t_scheme a) = Ok None
          \/ (exists m, load_scheme (t_scheme a) = Raise m) ->
          exists msg, payload = error_payload msg))
  /\ (forall id q w, queue w = (id, a) :: q ->
      exists payload,
        backend (worker_step load_scheme stream w) !! id
        = Some (Succeeded (VDict payload))
        /\ structured payload
        /\ (forall msg, task_failure load_scheme stream a msg ->
            payload = error_payload msg
            /\ exists r,
                task_status id (worker_step load_scheme stream w) = Ok r
                /\ body_get r "status" = Some (VStr "FAILURE")
                /\ body_get r "error" = Some (VStr msg)
                /\ body_get r "result" = None)
        /\ (forall msg, payload = error_payload msg ->
            exists r,
              task_status id (worker_step load_scheme stream w) = Ok r
              /\ body_get r "status" = Some (VStr "FAILURE")
              /\ body_get r "error" = Some (VStr msg)
              /\ body_get r "result" = None)).
Proof.
  split.
  - intros w.
    destruct (process_quantum_audio_structured a w)
      as (payload & w' & Hp & Hst & _ & _).
    exists payload, w'. split; [exact Hp|]. split; [exact Hst|].
    split; [|split].
    + intros msg Hf. destruct (task_failure_payload a msg w Hf) as (w'' & Hp' & _).
      congruence.
    + destruct (task_fails_or_succeeds a w)
        as [Hf|(payload' & w'' & Hp' & Hs & _)]; [left; exact Hf|].
      right. congruence.
    + destruct (process_quantum_audio_cases load_scheme stream a w)
        as [(d & h & out & dur & _ & Hl & _ & _ & payload' & Hp' & _)
           |(msg & w'' & Hp' & _)].
      * rewrite Hl. intros [?|[m ?]]; discriminate.
      * intros _. exists msg. congruence.
  - intros id q w Hq.
    assert (forall payload w',
               process_quantum_audio load_scheme stream a (set_queue q w)
               = (Ok payload, w') ->
               forall msg, payload = error_payload msg ->
               exists r,
                 task_status id
                   (set_backend (<[id := Succeeded (VDict payload)]> (backend w')) w')
                 = Ok r
                 /\ body_get r "status" = Some (VStr "FAILURE")
                 /\ body_get r "error" = Some (VStr msg)
                 /\ body_get r "result" = None) as Hpoll.
    { intros payload w' _ msg ->.
      erewrite task_status_internal_failure;
        [| simpl; apply lookup_insert_eq | reflexivity].
      eexists. split; [reflexivity|]. unfold body_get. simpl. auto. }
    unfold worker_step. rewrite Hq.
    destruct (process_quantum_audio_structured a (set_queue q w))
      as (payload & w' & Hp & Hs & _ & _).
    rewrite Hp. exists payload. simpl. rewrite lookup_insert_eq.
    split; [reflexivity|]. split; [exact Hs|]. split.
    + intros msg Hf.
      destruct (task_failure_payload a msg (set_queue q w) Hf) as (w'' & Hp' & _).
      assert (payload = error_payload msg) as He by congruence.
      split; [exact He|]. apply (Hpoll payload w' Hp msg He).
    + intros msg He. apply (Hpoll payload w' Hp msg He).
Qed.

End TaskErrors.

(** A job whose transform raises: the task returns the error dictionary
    with the transform's words, and the status endpoint shows the
    failure. *)
Lemma task_captures_errors_witness :
  let a := {| t_audio_data := L1 [0%Q]; t_scheme := "qpam"; t_shots := 4000;
              t_buffer_size := 256; t_sample_rate := 22050 |} in
  let w := set_queue [("0", a)] empty_world in
  backend (worker_step Demo.registry Demo.failing w) !! "0"
  = Some (Succeeded (VDict (error_payload "circuit too deep")))
  /\ exists r,
      task_status "0" (worker_step Demo.registry Demo.failing w) = Ok r
      /\ body_get r "status" = Some (VStr "FAILURE")
      /\ body_get r "error" = Some (VStr "circuit too deep")
      /\ body_get r "result" = None.
Proof.
  intros a w.
  destruct (proj2 (task_captures_errors Demo.registry Demo.failing a) "0" [] w
              eq_refl) as (payload & Hb & _ & Hf & _).
  destruct (Hf "circuit too deep"
              (fail_transform string Demo.registry Demo.failing a (Arr1 [0%Q])
                 "qpam" "circuit too deep" eq_refl eq_refl eq_refl)) as [He Hr].
  split; [rewrite Hb, He; reflexivity | exact Hr].
Defined.

(** The same for a scheme the registry does not have. *)
Example unknown_scheme_polled :
  let a := {| t_audio_data := L1 [0%Q]; t_scheme := "nope"; t_shots := 4000;
              t_buffer_size := 256; t_sample_rate := 22050 |} in
  task_status "0"
    (worker_step Demo.registry (Demo.gain 1) (set_queue [("0", a)] empty_world))
  = Ok (respond
          {[ "error" := VStr "Scheme 'nope' is not available or not implemented: Scheme 'nope' returned None - may not be implemented";
             "status" := VStr "FAILURE"; "task_id" := VStr "0" ]} 200).
Proof. reflexivity. Qed.

(** The message a caller sees for the unknown scheme above. *)
Example unknown_scheme_message :
  let a := {| t_audio_data := L1 [0%Q]; t_scheme := "nope"; t_shots := 4000;
              t_buffer_size := 256; t_sample_rate := 22050 |} in
  fst (process_quantum_audio Demo.registry (Demo.gain 1) a empty_world)
  = Ok (error_payload
          "Scheme 'nope' is not available or not implemented: Scheme 'nope' returned None - may not be implemented").
Proof. reflexivity. Qed.

(** ** The synchronous path and [buffer_size] *)

Lemma validate_buffer_size_passes o :
  passes_buffer_size o -> validate_int 256 128 1024 o = inl (default 256 o).
Proof.
  destruct o as [b|]; simpl; [|reflexivity].
  intros H. destruct (Z.ltb_spec b 128); [lia|].
  destruct (Z.ltb_spec 1024 b); [lia | reflexivity].
Qed.

Section QuickProcess.

Context {Scheme : Type}.
Variable librosa_load : list Byte.byte -> res (ndarray * Z).
Variable load_scheme : string -> res (option Scheme).
Variable stream : ndarray -> Scheme -> Z -> res ndarray.

(** C10, as amended. Two quick-process requests that differ only in
    [buffer_size], both values passing the serializer, get the same
    response and leave the same world: past validation the field is not
    read, no clamping is applied and nothing of it reaches the transform. *)
Theorem quick_process_ignores_valid_buffer_size rq b1 b2 w :
  passes_buffer_size b1 -> passes_buffer_size b2 ->
  quick_process librosa_load load_scheme stream (with_buffer_size b1 rq) w
  = quick_process librosa_load load_scheme stream (with_buffer_size b2 rq) w.
Proof.
  intros H1 H2. unfold quick_process, AudioProcessRequestSerializer. simpl.
  rewrite (validate_buffer_size_passes b1 H1), (validate_buffer_size_passes b2 H2).
  destruct (validate_audio _), (validate_choice _ _ _), (validate_int 4000 _ _ _),
    (validate_use_patch _); reflexivity.
Qed.

End QuickProcess.

Lemma quick_process_ignores_valid_buffer_size_witness :
  quick_process (Demo.codec (Arr1 [1#2]) 22050) Demo.registry (Demo.gain 1)
    (with_buffer_size (Some 128) Demo.bare) empty_world
  = quick_process (Demo.codec (Arr1 [1#2]) 22050) Demo.registry (Demo.gain 1)
      (with_buffer_size None Demo.bare) empty_world.
Proof.
  apply (quick_process_ignores_valid_buffer_size
           (Demo.codec (Arr1 [1#2]) 22050) Demo.registry (Demo.gain 1)
           Demo.bare (Some 128) None empty_world).
  - simpl. lia.
  - exact I.
Defined.

(** C10, as stated, fails: the same request with [buffer_size] 64 and
    with [buffer_size] 256 gets a 400 in one case and the processed audio
    in the other. *)
Lemma quick_process_buffer_size_counterexample :
  let qp := quick_process (Demo.codec (Arr1 [1#2]) 22050) Demo.registry
              (Demo.gain 1) in
  with_buffer_size (Some 64) (with_buffer_size (Some 256) Demo.bare)
  = with_buffer_size (Some 64) Demo.bare
  /\ fst (qp (with_buffer_size (Some 64) Demo.bare) empty_world)
     = Ok (respond {[ "buffer_size" := VList [VStr "min_value"] ]} 400)
  /\ fst (qp (with_buffer_size (Some 256) Demo.bare) empty_world)
     = Ok (respond {[ "audio" := VList [VFloat (1 * (1#2))%Q];
                      "sample_rate" := VInt 22050;
                      "samples" := VInt 1 ]} 200)
  /\ fst (qp (with_buffer_size (Some 64) Demo.bare) empty_world)
     <> fst (qp (with_buffer_size (Some 256) Demo.bare) empty_world).
Proof.
  repeat split; try reflexivity. vm_compute. discriminate.
Qed.

(** ** The asynchronous path and the cache *)

Section Cache.

Context {Scheme : Type}.
Variable librosa_load : list Byte.byte -> res (ndarray * Z).
Variable load_scheme : string -> res (option Scheme).
Variable stream : ndarray -> Scheme -> Z -> res ndarray.

(** The executor leaves the table of cached samples alone. *)
Lemma worker_step_processed_samples w :
  processed_samples (worker_step load_scheme stream w) = processed_samples w.
Proof.
  unfold worker_step. destruct (queue w) as [|[id a] q]; [reflexivity|].
  destruct (process_quantum_audio_cases load_scheme stream a (set_queue q w))
    as [(d & h & out & dur & _ & _ & _ & _ & payload & Hp & _)
       |(msg & w' & Hp & _ & _ & Hs)]; rewrite Hp; simpl; auto.
Qed.

Lemma passes_use_patch_inl u :
  passes_use_patch u -> exists c, validate_use_patch u = inl c.
Proof.
  intros Hu. destruct u as [[|n|s]|]; simpl; eauto.
  exfalso. apply (Hu s). reflexivity.
Qed.

(** C1, as amended. [process_audio] never reads or writes the cached
    samples, and of [use_patch] it takes nothing but its validity: its
    response and the rest of the world are the same for any two values of
    [use_patch] that pass validation (absent, null or an integer) and for
    any content of the table, while a value that is not an integer is
    answered 400 with an error for the field; the table is left as it was,
    and so is it by the executor. Every accepted request queues one new job
    and calls no transform itself; the same request processed twice queues
    two jobs with equal arguments under two handles, and each answer
    carries a handle and no audio. *)
Theorem process_audio_bypasses_cache rq w :
  (forall u1 u2 t,
      passes_use_patch u1 -> passes_use_patch u2 ->
      process_audio librosa_load (with_use_patch u1 rq) (set_processed_samples t w)
      = (fst (process_audio librosa_load (with_use_patch u2 rq) w),
         set_processed_samples t
           (snd (process_audio librosa_load (with_use_patch u2 rq) w))))
  /\ (forall s, exists errs,
        process_audio librosa_load (with_use_patch (Some (RInvalid s)) rq) w
        = (Ok (respond errs HTTP_400_BAD_REQUEST), w)
        /\ is_Some (errs !! "use_patch"))
  /\ processed_samples (snd (process_audio librosa_load rq w)) = processed_samples w
  /\ processed_samples (worker_step load_scheme stream w) = processed_samples w
  /\ stream_log (snd (process_audio librosa_load rq w)) = stream_log w
  /\ (forall vd d sr,
         AudioProcessRequestSerializer rq = inl vd ->
         librosa_load (v_audio vd) = Ok (d, sr) ->
         exists a r1 w1 r2 w2,
           process_audio librosa_load rq w = (Ok r1, w1)
           /\ process_audio librosa_load rq w1 = (Ok r2, w2)
           /\ queue w2 = (queue w ++ [(pretty (next_id w), a);
                                      (pretty (S (next_id w)), a)])%list
           /\ body_get r1 "task_id" = Some (VStr (pretty (next_id w)))
           /\ body_get r2 "task_id" = Some (VStr (pretty (S (next_id w))))
           /\ body_get r1 "audio" = None /\ body_get r2 "audio" = None).
Proof.
  split; [|split; [|split; [|split; [|split]]]].
  - intros u1 u2 t H1 H2.
    destruct (passes_use_patch_inl u1 H1) as [c1 Hc1].
    destruct (passes_use_patch_inl u2 H2) as [c2 Hc2].
    unfold process_audio, AudioProcessRequestSerializer. simpl.
    rewrite Hc1, Hc2.
    destruct (validate_audio _) as [a|], (validate_choice _ _ _),
      (validate_int 4000 _ _ _), (validate_int 256 _ _ _); try reflexivity.
    simpl. unfold try_catch, bind, lift.
    destruct (librosa_load a) as [[d sr]|m]; reflexivity.
  - intros s.
    exists (add_error "audio" (validate_audio (rq_audio rq))
              (add_error "scheme"
                 (validate_choice SCHEME_CHOICES "qpam" (form_value (rq_scheme rq)))
                 (add_error "shots" (validate_int 4000 1000 8000 (rq_shots rq))
                    (add_error "buffer_size"
                       (validate_int 256 128 1024 (rq_buffer_size rq))
                       {[ "use_patch" := VList [VStr "invalid"] ]})))).
    unfold process_audio, AudioProcessRequestSerializer. simpl.
    destruct (validate_audio _), (validate_choice _ _ _),
      (validate_int 4000 _ _ _), (validate_int 256 _ _ _);
      (split; [reflexivity|]); simpl;
      rewrite ?lookup_insert_ne by done; rewrite lookup_singleton_eq; eauto.
  - unfold process_audio.
    destruct (AudioProcessRequestSerializer rq) as [vd|e]; [|reflexivity].
    unfold try_catch, bind, lift.
    destruct (librosa_load (v_audio vd)) as [[d sr]|m]; reflexivity.
  - apply worker_step_processed_samples.
  - unfold process_audio.
    destruct (AudioProcessRequestSerializer rq) as [vd|e]; [|reflexivity].
    unfold try_catch, bind, lift.
    destruct (librosa_load (v_audio vd)) as [[d sr]|m]; reflexivity.
  - intros vd d sr Hv Hl.
    eexists _, _, _, _, _.
    split; [apply (process_audio_accepts librosa_load rq vd d sr w Hv Hl)|].
    split; [apply (process_audio_accepts librosa_load rq vd d sr _ Hv Hl)|].
    simpl. rewrite <- app_assoc. repeat split.
Qed.

End Cache.

(** The handles of two consecutive submissions differ. *)
Lemma consecutive_ids_differ (n : nat) : pretty n <> pretty (S n).
Proof. intros H. apply (inj pretty) in H. lia. Qed.

Lemma process_audio_bypasses_cache_witness :
  (exists a r1 w1 r2 w2,
      process_audio CacheExample.decode CacheExample.rq CacheExample.w0 = (Ok r1, w1)
      /\ process_audio CacheExample.decode CacheExample.rq w1 = (Ok r2, w2)
      /\ queue w2 = ([] ++ [(pretty 0%nat, a); (pretty 1%nat, a)])%list
      /\ body_get r1 "task_id" = Some (VStr (pretty 0%nat))
      /\ body_get r2 "task_id" = Some (VStr (pretty 1%nat))
      /\ body_get r1 "audio" = None /\ body_get r2 "audio" = None)
  /\ process_audio CacheExample.decode
       (with_use_patch (Some (RInt 1)) Demo.bare) CacheExample.w0
     = (fst (process_audio CacheExample.decode
               (with_use_patch None Demo.bare) empty_world),
        set_processed_samples [CacheExample.cached]
          (snd (process_audio CacheExample.decode
                  (with_use_patch None Demo.bare) empty_world))).
Proof.
  split.
  - refine (proj2 (proj2 (proj2 (proj2 (proj2
              (process_audio_bypasses_cache CacheExample.decode Demo.registry
                 (Demo.gain 1) CacheExample.rq CacheExample.w0)))))
              _ (Arr1 [1#2]) 22050 _ _); reflexivity.
  - apply (proj1 (process_audio_bypasses_cache CacheExample.decode Demo.registry
                    (Demo.gain 1) Demo.bare empty_world)
             (Some (RInt 1)) None [CacheExample.cached]);
      intros s; discriminate.
Defined.

(** C1, as stated, fails. The same upload is processed twice with
    [use_patch=1], the table holding a sample of patch 1 all along: the
    second call is answered like the first, with a new handle and no audio,
    a second job is queued, and once the executor has run both jobs the
    transform has been called twice on the same data. *)
Lemma cache_hit_counterexample :
  let pa := process_audio CacheExample.decode CacheExample.rq in
  let w1 := snd (pa CacheExample.w0) in
  let w2 := snd (pa w1) in
  let w3 := worker_run Demo.registry (Demo.gain 1) 2 w2 in
  fst (pa CacheExample.w0)
  = Ok (respond {[ "task_id" := VStr "0"; "status" := VStr "processing";
                   "message" := VStr "Audio processing started" ]} 200)
  /\ fst (pa w1)
     = Ok (respond {[ "task_id" := VStr "1"; "status" := VStr "processing";
                      "message" := VStr "Audio processing started" ]} 200)
  /\ queue w2 = [("0", CacheExample.job); ("1", CacheExample.job)]
  /\ stream_log w2 = []
  /\ stream_log w3 = [ {| sc_data := Arr1 [1#2]; sc_shots := 4000 |};
                       {| sc_data := Arr1 [1#2]; sc_shots := 4000 |} ]
  /\ processed_samples w3 = [CacheExample.cached].
Proof. repeat split; reflexivity. Qed.

(** ** The synchronous path, step by step *)

Section QuickProcessSteps.

Context {Scheme : Type}.
Variable librosa_load : list Byte.byte -> res (ndarray * Z).
Variable load_scheme : string -> res (option Scheme).
Variable stream : ndarray -> Scheme -> Z -> res ndarray.

Lemma quick_process_undecodable rq vd m w :
  AudioProcessRequestSerializer rq = inl vd ->
  librosa_load (v_audio vd) = Raise m ->
  quick_process librosa_load load_scheme stream rq w
  = (Ok (respond {[ "error" := VStr m ]} 500), w).
Proof.
  intros Hv Hl. unfold quick_process. rewrite Hv.
  unfold try_catch, bind, lift. rewrite Hl. reflexivity.
Qed.

(** The size gate compares [len(data)], the extent of the first axis. *)
Lemma quick_process_too_long rq vd d sr w :
  AudioProcessRequestSerializer rq = inl vd ->
  librosa_load (v_audio vd) = Ok (d, sr) ->
  (2048 < len (to_scheme_layout (v_scheme vd) d))%Z ->
  quick_process librosa_load load_scheme stream rq w
  = (Ok (respond {[ "error" := VStr "Audio too long for quick processing. Use /process/ endpoint." ]}
           400), w).
Proof.
  intros Hv Hl Hn. unfold quick_process. rewrite Hv.
  unfold try_catch, bind, lift. rewrite Hl.
  apply Z.ltb_lt in Hn. rewrite Hn. reflexivity.
Qed.

(** Past the gate, with a scheme that loads, the transform is called on the
    clip and what it returns is what the caller gets. *)
Lemma quick_process_accepts rq vd d sr h w :
  AudioProcessRequestSerializer rq = inl vd ->
  librosa_load (v_audio vd) = Ok (d, sr) ->
  (len (to_scheme_layout (v_scheme vd) d) <= 2048)%Z ->
  load_scheme (v_scheme vd) = Ok (Some h) ->
  let d' := to_scheme_layout (v_scheme vd) d in
  let w' := set_stream_log
              (stream_log w ++ [{| sc_data := d'; sc_shots := v_shots vd |}]) w in
  quick_process librosa_load load_scheme stream rq w
  = match stream d' h (v_shots vd) with
    | Ok out =>
        (Ok (respond {[ "audio" := pylist_val (tolist out);
                        "sample_rate" := VInt sr;
                        "samples" := VInt (if (1 <? ndim out)%Z
                                           then shape_last out else len out) ]}
               200), w')
    | Raise m => (Ok (respond {[ "error" := VStr m ]} 500), w')
    end.
Proof.
  intros Hv Hl Hn Hs d' w'. unfold quick_process. rewrite Hv.
  unfold try_catch, bind, lift. rewrite Hl.
  apply Z.ltb_ge in Hn. rewrite Hn. rewrite Hs. unfold ret at 1.
  unfold quantumaudio_stream. fold d'.
  destruct (stream d' h (v_shots vd)); reflexivity.
Qed.

(** C4, as amended. Neither endpoint has an error of its own for an empty
    clip. An upload the codec cannot parse is answered HTTP 500 with the
    codec's message by both endpoints, nothing being queued or transformed.
    A clip that decodes to length zero is handled like any other:
    [process_audio] queues the job with the empty data, and
    [quick_process], once the scheme has loaded, calls the transform on the
    empty clip. *)
Theorem empty_clip_is_processed rq vd w :
  AudioProcessRequestSerializer rq = inl vd ->
  (forall m, librosa_load (v_audio vd) = Raise m ->
     process_audio librosa_load rq w
     = (Ok (respond {[ "error" := VStr m ]} HTTP_500_INTERNAL_SERVER_ERROR), w)
     /\ quick_process librosa_load load_scheme stream rq w
        = (Ok (respond {[ "error" := VStr m ]} HTTP_500_INTERNAL_SERVER_ERROR), w))
  /\ (forall d sr, librosa_load (v_audio vd) = Ok (d, sr) ->
      let d' := to_scheme_layout (v_scheme vd) d in
      len d' = 0%Z ->
      (exists id a r w',
          process_audio librosa_load rq w = (Ok r, w')
          /\ status_code r = HTTP_200_OK
          /\ queue w' = (queue w ++ [(id, a)])%list
          /\ t_audio_data a = tolist d')
      /\ (forall h, load_scheme (v_scheme vd) = Ok (Some h) ->
          stream_log (snd (quick_process librosa_load load_scheme stream rq w))
          = (stream_log w ++ [{| sc_data := d'; sc_shots := v_shots vd |}])%list)).
Proof.
  intros Hv. split.
  - intros m Hl. split.
    + apply (process_audio_undecodable librosa_load rq vd m w Hv Hl).
    + apply (quick_process_undecodable rq vd m w Hv Hl).
  - intros d sr Hl d' Hz. split.
    + rewrite (process_audio_accepts librosa_load rq vd d sr w Hv Hl).
      eexists _, _, _, _. split; [reflexivity|]. repeat split.
    + intros h Hs.
      rewrite (quick_process_accepts rq vd d sr h w Hv Hl); [|fold d'; lia|exact Hs].
      fold d'. destruct (stream d' h (v_shots vd)); reflexivity.
Qed.

End QuickProcessSteps.

Lemma empty_clip_is_processed_witness :
  (exists id a r w',
      process_audio EmptyClip.decode Demo.bare empty_world = (Ok r, w')
      /\ status_code r = HTTP_200_OK
      /\ queue w' = ([] ++ [(id, a)])%list
      /\ t_audio_data a = L1 [])
  /\ stream_log (snd (quick_process EmptyClip.decode Demo.registry (Demo.gain 1)
                        Demo.bare empty_world))
     = ([] ++ [{| sc_data := Arr1 []; sc_shots := 4000 |}])%list.
Proof.
  pose proof (proj2 (empty_clip_is_processed EmptyClip.decode Demo.registry
                       (Demo.gain 1) Demo.bare EmptyClip.vd empty_world
                       eq_refl) (Arr1 []) 22050 eq_refl eq_refl) as [H1 H2].
  split; [exact H1 | exact (H2 "qpam" eq_refl)].
Defined.

(** An upload the codec does not recognise: HTTP 500 with the codec's
    message, from both endpoints. *)
Example undecodable_upload_run :
  process_audio Demo.broken_codec Demo.bare empty_world
  = (Ok (respond {[ "error" := VStr "Format not recognised." ]} 500), empty_world)
  /\ quick_process Demo.broken_codec Demo.registry (Demo.gain 1) Demo.bare
       empty_world
     = (Ok (respond {[ "error" := VStr "Format not recognised." ]} 500), empty_world).
Proof. split; reflexivity. Qed.

(** C4, as stated, fails. The upload decodes to zero samples: the
    synchronous endpoint calls the transform on the empty clip and answers
    200 with the (empty) output, and the asynchronous endpoint queues the
    empty clip for the transform; neither reports an empty-audio error. *)
Lemma empty_audio_counterexample :
  len (Arr1 []) = 0%Z
  /\ quick_process EmptyClip.decode Demo.registry (Demo.gain 1) Demo.bare
       empty_world
     = (Ok (respond {[ "audio" := VList []; "sample_rate" := VInt 22050;
                       "samples" := VInt 0 ]} 200),
        set_stream_log [{| sc_data := Arr1 []; sc_shots := 4000 |}] empty_world)
  /\ process_audio EmptyClip.decode Demo.bare empty_world
     = (Ok (respond {[ "task_id" := VStr "0"; "status" := VStr "processing";
                       "message" := VStr "Audio processing started" ]} 200),
        set_queue [("0", {| t_audio_data := L1 []; t_scheme := "qpam";
                            t_shots := 4000; t_buffer_size := 256;
                            t_sample_rate := 22050 |})]
          (set_next_id 1 empty_world)).
Proof. repeat split; reflexivity. Qed.

(** ** The range of the returned audio *)

Section OutputRange.

Context {Scheme : Type}.
Variable load_scheme : string -> res (option Scheme).
Variable stream : ndarray -> Scheme -> Z -> res ndarray.

(** On the task path the audio of a success is the list form of an array
    whose samples all lie in [[-1, 1]], whatever the transform returned. *)
Lemma process_quantum_audio_clips a w payload w' :
  process_quantum_audio load_scheme stream a w = (Ok payload, w') ->
  payload !! "status" = Some (VStr "success") ->
  exists out,
    payload !! "audio" = Some (pylist_val (tolist out)) /\ in_unit_range out.
Proof.
  intros Hp Hs.
  destruct (process_quantum_audio_cases load_scheme stream a w)
    as [(d & h & out & dur & _ & _ & _ & _ & payload' & Hp' & _ & Ha & _)
       |(msg & w'' & Hp' & _)];
    rewrite Hp in Hp'; injection Hp' as -> _.
  - exists (np_clip out (-1) 1). split; [exact Ha | apply np_clip_in_unit_range].
  - discriminate Hs.
Qed.

End OutputRange.

(** C2 at a failing input. The transform returns the sample 3/2 for the
    clip [[3/4]]. The task clips it to 1; the synchronous endpoint returns
    3/2 as it is, outside [[-1, 1]]. *)
Theorem quick_process_returns_unclipped :
  fst (quick_process Loud.decode Demo.registry Loud.transform Demo.bare
         empty_world)
  = Ok (respond {[ "audio" := VList [VFloat (2 * (3#4))%Q];
                   "sample_rate" := VInt 22050; "samples" := VInt 1 ]} 200)
  /\ ~ (2 * (3#4) <= 1)%Q
  /\ in_unit_rangeb (Arr1 [(2 * (3#4))%Q]) = false
  /\ (fst (process_quantum_audio Demo.registry Loud.transform Loud.job
             empty_world))
     = Ok ({[ "status" := VStr "success";
              "audio" := VList [VFloat (clip1 (-1) 1 (2 * (3#4)))];
              "metadata" := VDict {[ "scheme" := VStr "qpam";
                                     "shots" := VInt 4000;
                                     "buffer_size" := VInt 256;
                                     "sample_rate" := VInt 22050;
                                     "samples" := VInt 1;
                                     "duration" := VFloat (1 / 22050) ]} ]})
  /\ (clip1 (-1) 1 (2 * (3#4)) == 1)%Q.
Proof.
  split; [reflexivity|]. split; [intros H; vm_compute in H; apply H; reflexivity|].
  split; [reflexivity|]. split; reflexivity.
Qed.

(** ** The size gate of the synchronous path *)

(** C5 at a failing input. A stereo clip of 2049 samples per channel,
    for the scheme mqsm, passes the gate, which sees [len(data) = 2]: the
    transform is called and the answer is 200 with 2049 samples. A mono
    clip of 2049 samples is rejected with 400. *)
Theorem quick_process_gate_counts_channels :
  sample_count Stereo.clip = 2049%Z
  /\ len Stereo.clip = 2%Z
  /\ (exists r w',
        quick_process Stereo.decode Demo.registry (Demo.gain 1) Stereo.rq
          empty_world = (Ok r, w')
        /\ status_code r = 200%Z
        /\ body_get r "samples" = Some (VInt 2049)
        /\ body_get r "error" = None
        /\ stream_log w' = [{| sc_data := Stereo.clip; sc_shots := 4000 |}])
  /\ fst (quick_process (Demo.codec (Arr1 (repeat 0%Q 2049)) 44100)
            Demo.registry (Demo.gain 1) Demo.bare empty_world)
     = Ok (respond {[ "error" := VStr "Audio too long for quick processing. Use /process/ endpoint." ]}
             400)
  /\ (exists r w',
        quick_process (Demo.codec (Arr1 (repeat 0%Q 2048)) 44100)
          Demo.registry (Demo.gain 1) Demo.bare empty_world = (Ok r, w')
        /\ status_code r = 200%Z
        /\ body_get r "samples" = Some (VInt 2048)).
Proof.
  split; [reflexivity|]. split; [reflexivity|]. split; [|split].
  - eexists _, _. split; [vm_compute; reflexivity|].
    split; [reflexivity|]. split; [vm_compute; reflexivity|].
    split; vm_compute; reflexivity.
  - vm_compute. reflexivity.
  - eexists _, _. split; [vm_compute; reflexivity|].
    split; [reflexivity | vm_compute; reflexivity].
Qed.

(** For a scheme that is not multi-channel the gate does see the sample
    count. *)
Lemma len_mono_layout scheme d :
  str_in scheme ["mqsm"; "msqpam"] = false ->
  len (to_scheme_layout scheme d) = sample_count d.
Proof.
  intros H. destruct d as [xs|rows]; [reflexivity|].
  unfold to_scheme_layout. rewrite H. unfold np_mean_axis0, sample_count. simpl.
  rewrite length_map, length_seq. reflexivity.
Qed.

(** ** The patch store *)

Module PatchStoreFacts.
Import PatchStore.

Lemma name_taken_true t inst s :
  name_taken t inst s = true <->
  exists k p, t !! k = Some p /\ name p = s /\ inst <> Some k.
Proof.
  unfold name_taken. rewrite existsb_exists. split.
  - intros ([k p] & Hin & Hb). apply list_elem_of_In, elem_of_map_to_list in Hin.
    apply andb_true_iff in Hb as [Hn He]. simpl in *.
    apply String.eqb_eq in Hn. apply negb_true_iff, bool_decide_eq_false in He.
    eauto.
  - intros (k & p & Hl & Hn & He). exists (k, p). split.
    + apply list_elem_of_In, elem_of_map_to_list, Hl.
    + simpl. apply andb_true_iff. split.
      * apply String.eqb_eq, Hn.
      * apply negb_true_iff, bool_decide_eq_false, He.
Qed.

(** What passed validation. *)
Lemma serializer_clean t inst partial d c :
  QuantumPatchSerializer t inst partial d = inl c ->
  c_shots c = d_shots d
  /\ c_name c = d_name d
  /\ (partial = false -> is_Some (c_name c))
  /\ (forall s, c_name c = Some s -> name_taken t inst s = false)
  /\ (forall n, c_shots c = Some n -> (1000 <= n <= 8000)%Z).
Proof.
  unfold QuantumPatchSerializer.
  destruct (validate_name t inst partial (d_name d)) as [nm|] eqn:Hn;
    destruct (validate_scheme (d_scheme d)) as [sc|] eqn:Hs;
    destruct (validate_shots (d_shots d)) as [sh|] eqn:Hh;
    destruct (validate_buffer_size (d_buffer_size d)) as [bs|] eqn:Hbs;
    try discriminate.
  intros [= <-]. simpl.
  unfold validate_name in Hn. unfold validate_shots in Hh.
  assert (sh = d_shots d /\ forall n, sh = Some n -> (1000 <= n <= 8000)%Z)
    as [Hsh Hrange].
  { destruct (d_shots d) as [n|]; [|injection Hh as <-; split; [auto|discriminate]].
    destruct (Z.ltb_spec n 1000); [discriminate|].
    destruct (Z.ltb_spec 8000 n); [discriminate|].
    simpl in Hh. injection Hh as <-. split; [reflexivity|].
    intros m [= <-]. lia. }
  assert (nm = d_name d /\ (partial = false -> is_Some nm)
          /\ forall s, nm = Some s -> name_taken t inst s = false)
    as (Hnm & Hreq & Hfree).
  { destruct (d_name d) as [s|].
    - destruct (String.eqb s ""); [discriminate|].
      destruct (100 <? Z.of_nat (String.length s))%Z;
        destruct (name_taken t inst s) eqn:Ht; try discriminate.
      simpl in Hn. injection Hn as <-. split; [reflexivity|]. split; [eauto|].
      intros s' [= <-]. exact Ht.
    - destruct partial; [|discriminate]. injection Hn as <-.
      split; [reflexivity|]. split; [discriminate | discriminate]. }
  auto.
Qed.

(** A name some other row has, or a shot count outside the range, fails
    validation, with an error under the field. *)
Lemma serializer_rejects t inst partial d :
  (exists s, d_name d = Some s /\ name_taken t inst s = true)
  \/ (exists n, d_shots d = Some n /\ (n < 1000 \/ 8000 < n)%Z) ->
  exists errs,
    QuantumPatchSerializer t inst partial d = inr errs
    /\ ((exists s, d_name d = Some s /\ name_taken t inst s = true) ->
        is_Some (errs !! "name"))
    /\ ((exists n, d_shots d = Some n /\ (n < 1000 \/ 8000 < n)%Z) ->
        is_Some (errs !! "shots")).
Proof.
  intros Hbad.
  assert ((exists s, d_name d = Some s /\ name_taken t inst s = true) ->
          exists codes, validate_name t inst partial (d_name d) = inr codes) as Hn.
  { intros (s & -> & Ht). unfold validate_name.
    destruct (String.eqb s ""); [eauto|].
    rewrite Ht. destruct (100 <? Z.of_nat (String.length s))%Z; simpl; eauto. }
  assert ((exists n, d_shots d = Some n /\ (n < 1000 \/ 8000 < n)%Z) ->
          exists codes, validate_shots (d_shots d) = inr codes) as Hh.
  { intros (n & -> & Hr). unfold validate_shots.
    destruct (Z.ltb_spec n 1000); destruct (Z.ltb_spec 8000 n); simpl; eauto.
    lia. }
  unfold QuantumPatchSerializer.
  exists (add_error "name" (validate_name t inst partial (d_name d))
            (add_error "scheme" (validate_scheme (d_scheme d))
               (add_error "shots" (validate_shots (d_shots d))
                  (add_error "buffer_size"
                     (validate_buffer_size (d_buffer_size d)) ∅)))).
  split; [|split].
  - destruct Hbad as [H|H].
    + destruct (Hn H) as [codes ->].
      destruct (validate_scheme _), (validate_shots _), (validate_buffer_size _);
        reflexivity.
    + destruct (Hh H) as [codes ->].
      destruct (validate_name _ _ _ _), (validate_scheme _),
        (validate_buffer_size _); reflexivity.
  - intros H. destruct (Hn H) as [codes ->]. simpl.
    rewrite lookup_insert_eq. eauto.
  - intros H. destruct (Hh H) as [codes ->].
    destruct (validate_name _ _ _ _), (validate_scheme _); simpl;
      rewrite ?lookup_insert_ne by done; rewrite lookup_insert_eq; eauto.
Qed.

Lemma create_ok d st : store_ok st -> store_ok (snd (create d st)).
Proof.
  intros [Hu Hr]. unfold create.
  destruct (QuantumPatchSerializer (rows st) None false d) as [c|e] eqn:Hv;
    [|split; assumption].
  destruct (serializer_clean _ _ _ _ _ Hv) as (_ & _ & Hreq & Hfree & Hrange).
  destruct (Hreq eq_refl) as [s Hs]. specialize (Hfree s Hs).
  assert (forall k q, rows st !! k = Some q -> name q <> s) as Hnew.
  { intros k q Hq Hn. assert (name_taken (rows st) None s = true) as Ht.
    { apply name_taken_true. exists k, q. repeat split; auto. }
    congruence. }
  split; simpl.
  - intros i j p q Hi Hj Hn.
    apply lookup_insert_Some in Hi as [[Hi <-]|[Hi Hp]];
      apply lookup_insert_Some in Hj as [[Hj <-]|[Hj Hq]].
    + congruence.
    + simpl in Hn. rewrite Hs in Hn. exfalso. eapply Hnew; eauto.
    + simpl in Hn. rewrite Hs in Hn. exfalso. eapply Hnew; eauto.
    + eapply Hu; eauto.
  - intros i p Hi.
    apply lookup_insert_Some in Hi as [[Hi <-]|[Hi Hp]]; [|eapply Hr; eauto].
    simpl. destruct (c_shots c) as [n|] eqn:Hn; simpl;
      [apply Hrange; reflexivity | lia].
Qed.

Lemma update_ok partial pk d st : store_ok st -> store_ok (snd (update partial pk d st)).
Proof.
  intros [Hu Hr]. unfold update.
  destruct (rows st !! pk) as [p0|] eqn:Hp; [|split; assumption].
  destruct (QuantumPatchSerializer (rows st) (Some pk) partial d) as [c|e] eqn:Hv;
    [|split; assumption].
  destruct (serializer_clean _ _ _ _ _ Hv) as (_ & _ & _ & Hfree & Hrange).
  assert (forall k q, rows st !! k = Some q -> k <> pk ->
                      name q <> name (assign (clock st) c p0)) as Hnew.
  { intros k q Hq Hk Hn. simpl in Hn.
    destruct (c_name c) as [s|] eqn:Hs; simpl in Hn.
    - assert (name_taken (rows st) (Some pk) s = true) as Ht.
      { apply name_taken_true. exists k, q. repeat split; auto. congruence. }
      rewrite (Hfree s eq_refl) in Ht. discriminate.
    - apply Hk. eapply Hu; eauto. }
  split; simpl.
  - intros i j p q Hi Hj Hn.
    apply lookup_insert_Some in Hi as [[Hi <-]|[Hi Hp']];
      apply lookup_insert_Some in Hj as [[Hj <-]|[Hj Hq]].
    + congruence.
    + exfalso. eapply (Hnew j q); eauto.
    + exfalso. eapply (Hnew i p); eauto.
    + eapply Hu; eauto.
  - intros i p Hi.
    apply lookup_insert_Some in Hi as [[Hi <-]|[Hi Hp']]; [|eapply Hr; eauto].
    simpl. destruct (c_shots c) as [n|] eqn:Hn; simpl;
      [apply Hrange; reflexivity | eapply Hr; eauto].
Qed.

Lemma destroy_ok pk st : store_ok st -> store_ok (snd (destroy pk st)).
Proof.
  intros [Hu Hr]. unfold destroy.
  destruct (rows st !! pk) as [p0|] eqn:Hp; [|split; assumption].
  split; simpl.
  - intros i j p q Hi Hj. apply lookup_delete_Some in Hi as [_ Hi].
    apply lookup_delete_Some in Hj as [_ Hj]. eapply Hu; eauto.
  - intros i p Hi. apply lookup_delete_Some in Hi as [_ Hi]. eapply Hr; eauto.
Qed.

Lemma step_ok o st : store_ok st -> store_ok (snd (step o st)).
Proof.
  destruct o; simpl; auto using create_ok, update_ok, destroy_ok.
Qed.

Lemma run_ok ops : forall st, store_ok st -> store_ok (run ops st).
Proof.
  unfold run. induction ops as [|o ops IH]; intros st H; simpl; [exact H|].
  apply IH, step_ok, H.
Qed.

Lemma empty_store_ok : store_ok empty_store.
Proof. split; intros i; intros; simpl in *; rewrite lookup_empty in *; discriminate. Qed.

(** C8. After any history of create, update and delete requests, no two
    stored patches share a name and every stored shot count lies in
    [[1000, 8000]]. A create or update that names another patch's name or
    carries a shot count outside the range is answered 400 with an error
    under the field and changes nothing; a write that is accepted stores
    the shot count it was given. *)
Theorem patch_writes_validated ops :
  let st := run ops empty_store in
  names_unique (rows st)
  /\ shots_in_range (rows st)
  /\ (forall d,
        duplicate_name (rows st) None d \/ shots_out_of_range d ->
        exists errs,
          create d st = (respond errs HTTP_400_BAD_REQUEST, st)
          /\ (duplicate_name (rows st) None d -> is_Some (errs !! "name"))
          /\ (shots_out_of_range d -> is_Some (errs !! "shots")))
  /\ (forall partial pk d,
        is_Some (rows st !! pk) ->
        duplicate_name (rows st) (Some pk) d \/ shots_out_of_range d ->
        exists errs,
          update partial pk d st = (respond errs HTTP_400_BAD_REQUEST, st)
          /\ (duplicate_name (rows st) (Some pk) d -> is_Some (errs !! "name"))
          /\ (shots_out_of_range d -> is_Some (errs !! "shots")))
  /\ (forall d n,
        status_code (fst (create d st)) = 201%Z -> d_shots d = Some n ->
        shots <$> rows (snd (create d st)) !! next_pk st = Some n)
  /\ (forall partial pk d n,
        status_code (fst (update partial pk d st)) = 200%Z ->
        d_shots d = Some n ->
        shots <$> rows (snd (update partial pk d st)) !! pk = Some n).
Proof.
  intros st.
  destruct (run_ok ops empty_store empty_store_ok) as [Hu Hr]. fold st in Hu, Hr.
  split; [exact Hu|]. split; [exact Hr|]. split; [|split; [|split]].
  - intros d Hbad.
    destruct (serializer_rejects (rows st) None false d Hbad) as (errs & He & H1 & H2).
    exists errs. unfold create. rewrite He. auto.
  - intros partial pk d [p Hp] Hbad.
    destruct (serializer_rejects (rows st) (Some pk) partial d Hbad)
      as (errs & He & H1 & H2).
    exists errs. unfold update. rewrite Hp, He. auto.
  - intros d n. unfold create.
    destruct (QuantumPatchSerializer (rows st) None false d) as [c|e] eqn:Hv;
      simpl; [|discriminate].
    intros _ Hn. destruct (serializer_clean _ _ _ _ _ Hv) as (Hs & _).
    rewrite lookup_insert_eq. simpl. rewrite Hs, Hn. reflexivity.
  - intros partial pk d n. unfold update.
    destruct (rows st !! pk) as [p|] eqn:Hp; simpl; [|discriminate].
    destruct (QuantumPatchSerializer (rows st) (Some pk) partial d) as [c|e] eqn:Hv;
      simpl; [|discriminate].
    intros _ Hn. destruct (serializer_clean _ _ _ _ _ Hv) as (Hs & _).
    rewrite lookup_insert_eq. simpl. rewrite Hs, Hn. reflexivity.
Qed.

End PatchStoreFacts.

(** With "p1" stored: a second "p1" is refused, and so is a patch with 999
    shots; the store stays as it was. *)
Lemma patch_writes_validated_witness :
  (exists errs,
      PatchStore.create PatchExample.p1 PatchExample.st1
      = (respond errs HTTP_400_BAD_REQUEST, PatchExample.st1)
      /\ is_Some (errs !! "name"))
  /\ (exists errs,
        PatchStore.create PatchExample.p2_low PatchExample.st1
        = (respond errs HTTP_400_BAD_REQUEST, PatchExample.st1)
        /\ is_Some (errs !! "shots"))
  /\ PatchStore.shots <$> PatchStore.rows PatchExample.st1 !! 1%Z = Some 4000%Z.
Proof.
  pose proof (PatchStoreFacts.patch_writes_validated [PatchStore.Create PatchExample.p1])
    as (_ & _ & Hc & _ & Hs & _).
  assert (PatchStore.duplicate_name (PatchStore.rows PatchExample.st1) None
            PatchExample.p1) as Hdup.
  { exists "p1". split; reflexivity. }
  assert (PatchStore.shots_out_of_range PatchExample.p2_low) as Hlow.
  { exists 999%Z. split; [reflexivity | left; lia]. }
  split; [|split].
  - destruct (Hc PatchExample.p1 (or_introl Hdup)) as (errs & He & Hn & _).
    exists errs. split; [exact He | exact (Hn Hdup)].
  - destruct (Hc PatchExample.p2_low (or_intror Hlow)) as (errs & He & _ & Hn).
    exists errs. split; [exact He | exact (Hn Hlow)].
  - reflexivity.
Defined.

(** The same, run: the answers and the codes of the errors. *)
Example patch_rejections_run :
  fst (PatchStore.create PatchExample.p1 PatchExample.st1)
  = respond {[ "name" := VList [VStr "unique"] ]} 400
  /\ fst (PatchStore.create PatchExample.p2_low PatchExample.st1)
     = respond {[ "shots" := VList [VStr "min_value"] ]} 400
  /\ status_code (fst (PatchStore.create PatchExample.p1 PatchStore.empty_store))
     = 201%Z.
Proof. repeat split; reflexivity. Qed.

(** * Further properties *)

(** ** What the request serializer accepts *)

Lemma str_in_elem s l : str_in s l = true <-> s ∈ l.
Proof.
  unfold str_in. rewrite existsb_exists. split.
  - intros (t & Hin & He). apply String.eqb_eq in He as ->.
    apply list_elem_of_In, Hin.
  - intros Hin. exists s. split; [apply list_elem_of_In, Hin | apply String.eqb_refl].
Qed.

Lemma validate_audio_inl o b :
  validate_audio o = inl b <-> o = Some b /\ b <> [].
Proof.
  unfold validate_audio. destruct o as [[|x l]|].
  - split; [discriminate|]. intros [[= <-] H]. congruence.
  - split.
    + intros [= <-]. split; [reflexivity | discriminate].
    + intros [[= <-] _]. reflexivity.
  - split; [discriminate|]. intros [[=] _].
Qed.

Lemma validate_choice_inl_iff choices d o s :
  validate_choice choices d o = inl s <->
  s = default d o /\ (forall t, o = Some t -> t ∈ choices).
Proof.
  unfold validate_choice. destruct o as [t|]; simpl.
  - destruct (str_in t choices) eqn:E.
    + split.
      * intros [= <-]. split; [reflexivity|]. intros t' [= <-].
        apply str_in_elem, E.
      * intros [-> _]. reflexivity.
    + split; [discriminate|]. intros [_ H].
      specialize (H t eq_refl). apply str_in_elem in H. congruence.
  - split; [intros [= <-]; split; [reflexivity | discriminate] | intros [-> _]; reflexivity].
Qed.

Lemma validate_int_inl_iff d lo hi o n :
  validate_int d lo hi o = inl n <->
  n = default d o /\ (forall m, o = Some m -> (lo <= m <= hi)%Z).
Proof.
  unfold validate_int. destruct o as [m|]; simpl.
  - destruct (Z.ltb_spec m lo); [|destruct (Z.ltb_spec hi m)].
    + split; [discriminate|]. intros [_ Hm]. specialize (Hm m eq_refl). lia.
    + split; [discriminate|]. intros [_ Hm]. specialize (Hm m eq_refl). lia.
    + split.
      * intros [= <-]. split; [reflexivity|]. intros m' [= <-]. lia.
      * intros [-> _]. reflexivity.
  - split; [intros [= <-]; split; [reflexivity | discriminate] | intros [-> _]; reflexivity].
Qed.

Lemma form_value_Some o t :
  form_value o = Some t <-> o = Some t /\ t <> "".
Proof.
  unfold form_value. destruct o as [s|]; [|split; [discriminate | intros [[=] _]]].
  destruct (String.eqb_spec s "") as [->|Hne]; split.
  - discriminate.
  - intros [[= <-] H]. congruence.
  - intros [= <-]. auto.
  - intros [[= <-] _]. reflexivity.
Qed.

Lemma validate_use_patch_inl_iff u c :
  validate_use_patch u = inl c <-> passes_use_patch u /\ c = use_patch_value u.
Proof.
  unfold passes_use_patch. destruct u as [[|n|s]|]; simpl; split;
    try (intros [= <-]; split; [discriminate | reflexivity]);
    try (intros [_ ->]; reflexivity).
  - discriminate.
  - intros [H _]. exfalso. apply (H s). reflexivity.
Qed.

(** X1. The request serializer accepts exactly the requests that carry a
    non-empty upload, a scheme that is absent, empty or one of the five
    choices, shots absent or within [[1000, 8000]], a buffer size absent or
    within [[128, 1024]] and a [use_patch] that is absent, null or an
    integer; the validated data are then the given values, with qpam, 4000
    and 256 for the absent ones, an empty scheme counting as absent. *)
Theorem request_accepted_iff rq :
  well_formed_request rq <->
  AudioProcessRequestSerializer rq
  = inl {| v_audio := default [] (rq_audio rq);
           v_scheme := default "qpam" (form_value (rq_scheme rq));
           v_shots := default 4000 (rq_shots rq);
           v_buffer_size := default 256 (rq_buffer_size rq);
           v_use_patch := use_patch_value (rq_use_patch rq) |}.
Proof.
  unfold AudioProcessRequestSerializer, well_formed_request. split.
  - intros ((b & Ha & Hb) & Hs & Hn & Hz & Hu).
    assert (validate_audio (rq_audio rq) = inl b) as ->
      by (apply validate_audio_inl; auto).
    assert (validate_choice SCHEME_CHOICES "qpam" (form_value (rq_scheme rq))
            = inl (default "qpam" (form_value (rq_scheme rq)))) as ->.
    { apply validate_choice_inl_iff. split; [reflexivity|].
      intros t Ht. apply form_value_Some in Ht as [Ht Hne].
      destruct (Hs t Ht) as [E|E]; [contradiction | exact E]. }
    assert (validate_int 4000 1000 8000 (rq_shots rq)
            = inl (default 4000 (rq_shots rq))) as ->
      by (apply validate_int_inl_iff; auto).
    assert (validate_int 256 128 1024 (rq_buffer_size rq)
            = inl (default 256 (rq_buffer_size rq))) as ->
      by (apply validate_int_inl_iff; auto).
    assert (validate_use_patch (rq_use_patch rq)
            = inl (use_patch_value (rq_use_patch rq))) as ->
      by (apply validate_use_patch_inl_iff; auto).
    rewrite Ha. reflexivity.
  - destruct (validate_audio (rq_audio rq)) as [a|ea] eqn:Ha;
      destruct (validate_choice _ _ _) as [s|es] eqn:Hs;
      destruct (validate_int 4000 _ _ _) as [n|en] eqn:Hn;
      destruct (validate_int 256 _ _ _) as [b|eb] eqn:Hb;
      destruct (validate_use_patch _) as [u|eu] eqn:Hu;
      try discriminate.
    intros _.
    apply validate_audio_inl in Ha. apply validate_choice_inl_iff in Hs as [_ Hs].
    apply validate_int_inl_iff in Hn as [_ Hn].
    apply validate_int_inl_iff in Hb as [_ Hb].
    apply validate_use_patch_inl_iff in Hu as [Hu _].
    split; [eauto|]. split; [|auto].
    intros t Ht. destruct (String.eqb_spec t "") as [E|E]; [left; exact E|].
    right. apply Hs. apply form_value_Some. auto.
Qed.

Lemma accepted_well_formed rq vd :
  AudioProcessRequestSerializer rq = inl vd ->
  well_formed_request rq
  /\ vd = {| v_audio := default [] (rq_audio rq);
             v_scheme := default "qpam" (form_value (rq_scheme rq));
             v_shots := default 4000 (rq_shots rq);
             v_buffer_size := default 256 (rq_buffer_size rq);
             v_use_patch := use_patch_value (rq_use_patch rq) |}.
Proof.
  intros Hv.
  destruct (serializer_valid rq vd Hv) as (Ha & Hs & Hh & Hb & Hu & _).
  apply validate_use_patch_inl_iff in Hu as [_ Hu].
  assert (vd = {| v_audio := default [] (rq_audio rq);
                  v_scheme := default "qpam" (form_value (rq_scheme rq));
                  v_shots := default 4000 (rq_shots rq);
                  v_buffer_size := default 256 (rq_buffer_size rq);
                  v_use_patch := use_patch_value (rq_use_patch rq) |}) as He.
  { rewrite Ha. simpl. destruct vd; simpl in *. congruence. }
  split; [|exact He]. apply request_accepted_iff. rewrite Hv, He at 1. reflexivity.
Qed.

(** The serializer decides: a request is accepted or it is not well
    formed. *)
Lemma request_rejected_iff rq :
  ~ well_formed_request rq <->
  exists errs, AudioProcessRequestSerializer rq = inr errs.
Proof.
  split.
  - intros Hn. destruct (AudioProcessRequestSerializer rq) as [vd|errs] eqn:Hv;
      [|eauto].
    exfalso. apply Hn. apply (accepted_well_formed rq vd Hv).
  - intros [errs He] Hw. apply request_accepted_iff in Hw. congruence.
Qed.

(** An empty scheme and a null [use_patch] are let through. *)
Lemma request_accepted_iff_witness :
  AudioProcessRequestSerializer
    {| rq_audio := Some Demo.upload; rq_scheme := Some "";
       rq_shots := None; rq_buffer_size := Some 1024;
       rq_use_patch := Some RNull |}
  = inl {| v_audio := Demo.upload; v_scheme := "qpam"; v_shots := 4000;
           v_buffer_size := 1024; v_use_patch := Some None |}.
Proof.
  apply (proj1 (request_accepted_iff
                  {| rq_audio := Some Demo.upload; rq_scheme := Some "";
                     rq_shots := None; rq_buffer_size := Some 1024;
                     rq_use_patch := Some RNull |})).
  split; [exists Demo.upload; split; [reflexivity | discriminate]|].
  split; [intros s [= <-]; left; reflexivity|].
  split; [discriminate|].
  split; [intros b [= <-]; lia | discriminate].
Defined.

(** A [use_patch] that is not an integer makes the request invalid. *)
Example use_patch_not_an_integer :
  AudioProcessRequestSerializer (with_use_patch (Some (RInvalid "abc")) Demo.bare)
  = inr {[ "use_patch" := VList [VStr "invalid"] ]}.
Proof. reflexivity. Qed.

(** ** The outcomes of the two processing endpoints *)

Section Outcomes.

Context {Scheme : Type}.
Variable librosa_load : list Byte.byte -> res (ndarray * Z).
Variable load_scheme : string -> res (option Scheme).
Variable stream : ndarray -> Scheme -> Z -> res ndarray.

(** X2. [process_audio] answers every request and raises for none. The
    answer is 400 when the request is not well formed, 500 with the codec's
    message when the upload does not decode, and 200 otherwise; only the
    200 changes anything: one job more in the queue, the next handle
    advanced, the backend, the transform log and the cached samples as they
    were. *)
Theorem process_audio_outcomes rq w :
  exists r w',
    process_audio librosa_load rq w = (Ok r, w')
    /\ ((~ well_formed_request rq /\ status_code r = 400%Z /\ w' = w)
        \/ (well_formed_request rq
            /\ (exists m, librosa_load (default [] (rq_audio rq)) = Raise m
                          /\ r = respond {[ "error" := VStr m ]} 500)
            /\ w' = w)
        \/ (well_formed_request rq
            /\ (exists d sr, librosa_load (default [] (rq_audio rq)) = Ok (d, sr))
            /\ status_code r = 200%Z
            /\ length (queue w') = S (length (queue w))
            /\ firstn (length (queue w)) (queue w') = queue w
            /\ next_id w' = S (next_id w)
            /\ backend w' = backend w
            /\ stream_log w' = stream_log w
            /\ processed_samples w' = processed_samples w)).
Proof.
  destruct (AudioProcessRequestSerializer rq) as [vd|errs] eqn:Hv.
  - destruct (accepted_well_formed rq vd Hv) as [Hw Hvd].
    assert (v_audio vd = default [] (rq_audio rq)) as Hau by (rewrite Hvd; reflexivity).
    rewrite <- Hau.
    destruct (librosa_load (v_audio vd)) as [[d sr]|m] eqn:Hl.
    + eexists _, _. split.
      * apply (process_audio_accepts librosa_load rq _ d sr w Hv Hl).
      * right. right. split; [exact Hw|]. split; [eauto|]. simpl.
        rewrite length_app, firstn_app, Nat.sub_diag, firstn_all. simpl.
        rewrite app_nil_r. repeat split. lia.
    + eexists _, _. split.
      * apply (process_audio_undecodable librosa_load rq _ m w Hv Hl).
      * right. left. eauto.
  - eexists _, _. split.
    + apply (invalid_request librosa_load load_scheme stream rq errs w Hv).
    + left. split; [|split; reflexivity].
      apply request_rejected_iff. eauto.
Qed.

End Outcomes.

Section QuickOutcomes.

Context {Scheme : Type}.
Variable librosa_load : list Byte.byte -> res (ndarray * Z).
Variable load_scheme : string -> res (option Scheme).
Variable stream : ndarray -> Scheme -> Z -> res ndarray.

(** X3. [quick_process] answers every request with 200, 400 or 500 and
    raises for none. It never queues a job and never touches the backend,
    the handle counter or the cached samples; it calls the transform at
    most once, and a 200 answer means it was called exactly once and its
    output is in the answer. *)
Theorem quick_process_outcomes rq w :
  exists r w',
    quick_process librosa_load load_scheme stream rq w = (Ok r, w')
    /\ (status_code r = 200 \/ status_code r = 400 \/ status_code r = 500)%Z
    /\ queue w' = queue w /\ backend w' = backend w
    /\ next_id w' = next_id w
    /\ processed_samples w' = processed_samples w
    /\ (stream_log w' = stream_log w
        \/ exists c, stream_log w' = (stream_log w ++ [c])%list)
    /\ (status_code r = 200%Z ->
        exists c h out,
          stream_log w' = (stream_log w ++ [c])%list
          /\ stream (sc_data c) h (sc_shots c) = Ok out
          /\ body_get r "audio" = Some (pylist_val (tolist out))).
Proof.
  unfold quick_process.
  destruct (AudioProcessRequestSerializer rq) as [vd|errs];
    [|eexists _, _; split; [reflexivity|]; simpl; repeat split; auto; discriminate].
  unfold try_catch, bind, lift.
  destruct (librosa_load (v_audio vd)) as [[d sr]|m];
    [|eexists _, _; split; [reflexivity|]; simpl; repeat split; auto; discriminate].
  destruct (2048 <? len (to_scheme_layout (v_scheme vd) d))%Z;
    [eexists _, _; split; [reflexivity|]; simpl; repeat split; auto; discriminate|].
  destruct (load_scheme (v_scheme vd)) as [[h|]|m];
    [| eexists _, _; split; [reflexivity|]; simpl; repeat split; auto; discriminate
     | eexists _, _; split; [reflexivity|]; simpl; repeat split; auto; discriminate].
  unfold ret at 1. unfold quantumaudio_stream.
  destruct (stream (to_scheme_layout (v_scheme vd) d) h (v_shots vd)) as [out|m] eqn:Hst.
  - eexists _, _. split; [reflexivity|]. simpl.
    repeat split; eauto.
    intros _. eexists _, h, out. split; [reflexivity|]. split; [exact Hst|].
    reflexivity.
  - eexists _, _. split; [reflexivity|]. simpl.
    repeat split; eauto. discriminate.
Qed.

(** X4. When the scheme does not load, [quick_process] answers 500 with a
    message that names the scheme and carries the loader's own words, and
    the transform is not called. A loader that returns None counts as not
    implemented. *)
Theorem quick_process_scheme_unavailable rq vd d sr w :
  AudioProcessRequestSerializer rq = inl vd ->
  librosa_load (v_audio vd) = Ok (d, sr) ->
  (len (to_scheme_layout (v_scheme vd) d) <= 2048)%Z ->
  (load_scheme (v_scheme vd) = Ok None ->
   quick_process librosa_load load_scheme stream rq w
   = (Ok (respond {[ "error" := VStr ("Scheme '" +:+ v_scheme vd
                                        +:+ "' is not available: "
                                        +:+ ("Scheme '" +:+ v_scheme vd
                                             +:+ "' is not implemented in quantumaudio")) ]}
            500), w))
  /\ (forall m, load_scheme (v_scheme vd) = Raise m ->
      quick_process librosa_load load_scheme stream rq w
      = (Ok (respond {[ "error" := VStr ("Scheme '" +:+ v_scheme vd
                                           +:+ "' is not available: " +:+ m) ]}
               500), w)).
Proof.
  intros Hv Hl Hn. apply Z.ltb_ge in Hn.
  split; [intros Hs | intros m Hs];
    unfold quick_process; rewrite Hv; unfold try_catch, bind, lift;
    rewrite Hl, Hn, Hs; simpl; unfold raise; simpl.
  - reflexivity.
  - reflexivity.
Qed.

End QuickOutcomes.

Lemma quick_process_scheme_unavailable_witness :
  quick_process (Demo.codec (Arr1 [1#2]) 22050)
    (fun _ : string => Ok (None : option string)) (Demo.gain 1)
    Demo.bare empty_world
  = (Ok (respond {[ "error" := VStr "Scheme 'qpam' is not available: Scheme 'qpam' is not implemented in quantumaudio" ]}
           500), empty_world).
Proof.
  apply (proj1 (quick_process_scheme_unavailable
                  (Demo.codec (Arr1 [1#2]) 22050)
                  (fun _ : string => Ok (None : option string)) (Demo.gain 1)
                  Demo.bare EmptyClip.vd (Arr1 [1#2]) 22050 empty_world
                  eq_refl eq_refl ltac:(simpl; lia)) eq_refl).
Defined.

(** ** Channel handling and the dynamic range *)

Lemma Qsum_bounds l :
  Forall (fun x => (-1 <= x /\ x <= 1)%Q) l ->
  (- inject_Z (Z.of_nat (length l)) <= Qsum l
   /\ Qsum l <= inject_Z (Z.of_nat (length l)))%Q.
Proof.
  induction 1 as [|x l [Hlo Hhi] _ [IHlo IHhi]].
  - simpl. split; discriminate.
  - change (Qsum (x :: l)) with (x + Qsum l)%Q.
    change (length (x :: l)) with (S (length l)).
    rewrite Nat2Z.inj_succ, <- Z.add_1_l, inject_Z_plus.
    change (inject_Z 1) with 1%Q. split; lra.
Qed.

(** The average of samples in [[-1, 1]] is in [[-1, 1]]. *)
Lemma mean_in_unit_range l :
  l <> [] ->
  Forall (fun x => (-1 <= x /\ x <= 1)%Q) l ->
  (-1 <= Qsum l / inject_Z (Z.of_nat (length l))
   /\ Qsum l / inject_Z (Z.of_nat (length l)) <= 1)%Q.
Proof.
  intros Hne Hl. destruct (Qsum_bounds l Hl) as [Hlo Hhi].
  assert (0 < inject_Z (Z.of_nat (length l)))%Q as Hpos.
  { change 0%Q with (inject_Z 0). rewrite <- Zlt_Qlt.
    destruct l; [congruence | simpl; lia]. }
  split.
  - apply Qle_shift_div_l; [exact Hpos | lra].
  - apply Qle_shift_div_r; [exact Hpos | lra].
Qed.

Lemma nth_in_unit_range i r :
  Forall (fun x => (-1 <= x /\ x <= 1)%Q) r ->
  (-1 <= nth i r 0 /\ nth i r 0 <= 1)%Q.
Proof.
  intros Hr. destruct (nth_in_or_default i r 0%Q) as [Hin| ->].
  - rewrite Forall_forall in Hr. apply Hr. apply list_elem_of_In, Hin.
  - split; discriminate.
Qed.

(** X5. The channel handling of the two endpoints keeps the dynamic
    range: when every decoded sample lies in [[-1, 1]], so does every sample
    of the clip handed on, whether the channels were averaged or kept. *)
Theorem layout_keeps_unit_range scheme d :
  in_unit_range d -> in_unit_range (to_scheme_layout scheme d).
Proof.
  destruct d as [xs|rows]; [auto|].
  unfold to_scheme_layout.
  destruct (negb (str_in scheme ["mqsm"; "msqpam"])); [|auto].
  unfold in_unit_range. simpl. intros Hr.
  apply List.Forall_concat in Hr.
  unfold np_mean_axis0. apply Forall_forall. intros y Hy.
  apply list_elem_of_In, in_map_iff in Hy as (i & <- & _).
  destruct rows as [|r0 rows']; [simpl; split; discriminate|].
  set (col := map (fun r : list Q => nth i r 0%Q) (r0 :: rows')).
  replace (length (r0 :: rows')) with (length col) by (unfold col; apply length_map).
  apply mean_in_unit_range; [unfold col; discriminate|].
  unfold col. apply Forall_forall. intros x Hx.
  apply list_elem_of_In, in_map_iff in Hx as (r & <- & Hin).
  apply nth_in_unit_range.
  rewrite List.Forall_forall in Hr. apply Hr, Hin.
Qed.

Lemma layout_keeps_unit_range_witness :
  in_unit_range (to_scheme_layout "qpam" (Arr2 [[1; -1]; [1; 1#2]]%Q)).
Proof.
  apply layout_keeps_unit_range.
  unfold in_unit_range. simpl.
  repeat constructor; discriminate.
Defined.

(** The averaged clip of the witness. *)
Example layout_average_run :
  to_scheme_layout "qpam" (Arr2 [[1; -1]; [1; 1#2]]%Q)
  = Arr1 [((1 + (1 + 0)) / 2)%Q; ((-1 + ((1#2) + 0)) / 2)%Q].
Proof. reflexivity. Qed.

(** ** From the view to the transform and back *)

Lemma np_array_tolist d : proper_array d -> np_array (tolist d) = Ok d.
Proof.
  destruct d as [xs|rows]; simpl; [reflexivity|].
  intros [Hne Hr]. destruct rows as [|r rows]; [congruence|].
  rewrite Hr. reflexivity.
Qed.

Lemma layout_proper scheme d :
  proper_array d -> proper_array (to_scheme_layout scheme d).
Proof.
  destruct d as [xs|rows]; [auto|]. unfold to_scheme_layout.
  destruct (negb (str_in scheme ["mqsm"; "msqpam"])); simpl; auto.
Qed.

Section RoundTrip.

Context {Scheme : Type}.
Variable librosa_load : list Byte.byte -> res (ndarray * Z).
Variable load_scheme : string -> res (option Scheme).
Variable stream : ndarray -> Scheme -> Z -> res ndarray.

(** Once the data is an array and the scheme has loaded, the task calls
    the transform, once. *)
Lemma process_quantum_audio_log a d h w :
  np_array (t_audio_data a) = Ok d ->
  load_scheme (t_scheme a) = Ok (Some h) ->
  stream_log (snd (process_quantum_audio load_scheme stream a w))
  = (stream_log w ++ [{| sc_data := d; sc_shots := t_shots a |}])%list.
Proof.
  intros Hd Hs.
  unfold process_quantum_audio, process_quantum_audio_body, try_catch, bind,
    lift, raise, ret, quantumaudio_stream.
  rewrite Hd, Hs.
  destruct (stream d h (t_shots a)) as [out|m]; [|reflexivity].
  destruct (true_div _ _); reflexivity.
Qed.

Lemma worker_step_stream_log id a q w :
  queue w = (id, a) :: q ->
  stream_log (worker_step load_scheme stream w)
  = stream_log (snd (process_quantum_audio load_scheme stream a (set_queue q w))).
Proof.
  intros Hq. unfold worker_step. rewrite Hq.
  destruct (process_quantum_audio load_scheme stream a (set_queue q w))
    as [[payload|e] w']; reflexivity.
Qed.

(** X6. The clip reaches the transform unchanged on both paths. For an
    accepted request whose upload decodes to a proper array and whose
    scheme loads, the executor, running the job that [process_audio]
    queued, calls the transform once, on the clip in the layout of the
    scheme and with the validated shot count; when the clip passes the size
    gate, [quick_process] makes the very same call. The buffer size is part
    of neither call. *)
Theorem both_paths_same_transform_call rq vd d sr h w :
  AudioProcessRequestSerializer rq = inl vd ->
  librosa_load (v_audio vd) = Ok (d, sr) ->
  proper_array d ->
  load_scheme (v_scheme vd) = Ok (Some h) ->
  queue w = [] ->
  let call := {| sc_data := to_scheme_layout (v_scheme vd) d;
                 sc_shots := v_shots vd |} in
  stream_log (worker_step load_scheme stream
                (snd (process_audio librosa_load rq w)))
  = (stream_log w ++ [call])%list
  /\ ((len (to_scheme_layout (v_scheme vd) d) <= 2048)%Z ->
      stream_log (snd (quick_process librosa_load load_scheme stream rq w))
      = (stream_log w ++ [call])%list).
Proof.
  intros Hv Hl Hp Hs Hq call. split.
  - rewrite (process_audio_accepts librosa_load rq vd d sr w Hv Hl). simpl.
    erewrite worker_step_stream_log; [|simpl; rewrite Hq; reflexivity].
    erewrite process_quantum_audio_log;
      [reflexivity | simpl; apply np_array_tolist, layout_proper, Hp | exact Hs].
  - intros Hn.
    rewrite (quick_process_accepts librosa_load load_scheme stream
               rq vd d sr h w Hv Hl Hn Hs).
    destruct (stream _ h (v_shots vd)); reflexivity.
Qed.

(** X7. The asynchronous round trip. An accepted request whose upload
    decodes to a proper array at a non-zero rate, whose scheme loads and
    whose transform returns, is answered with a handle; polled before the
    executor has run, the handle is PENDING with no result and no error;
    polled after, it is SUCCESS with the task's payload as result: the
    transform's output as [np.clip] with the bounds -1 and 1 leaves it, and
    metadata that echo the scheme, the shots, the tuned buffer size and the
    sample rate. The output is one of finite samples, as every array of the
    embedding is. *)
Theorem async_round_trip rq vd d sr h out w :
  AudioProcessRequestSerializer rq = inl vd ->
  librosa_load (v_audio vd) = Ok (d, sr) ->
  proper_array d ->
  sr <> 0%Z ->
  load_scheme (v_scheme vd) = Ok (Some h) ->
  stream (to_scheme_layout (v_scheme vd) d) h (v_shots vd) = Ok out ->
  queue w = [] ->
  backend w !! pretty (next_id w) = None ->
  let id := pretty (next_id w) in
  let w1 := snd (process_audio librosa_load rq w) in
  let w2 := worker_step load_scheme stream w1 in
  let clipped := np_clip out (-1) 1 in
  (exists r1, fst (process_audio librosa_load rq w) = Ok r1
              /\ body_get r1 "task_id" = Some (VStr id))
  /\ task_status id w1
     = Ok (respond {[ "task_id" := VStr id; "status" := VStr "PENDING" ]} 200)
  /\ task_status id w2
     = Ok (respond
             {[ "task_id" := VStr id; "status" := VStr "SUCCESS";
                "result" :=
                  VDict {[ "status" := VStr "success";
                           "audio" := pylist_val (tolist clipped);
                           "metadata" :=
                             VDict {[ "scheme" := VStr (v_scheme vd);
                                      "shots" := VInt (v_shots vd);
                                      "buffer_size" :=
                                        VInt (tuned_buffer_size (v_scheme vd)
                                                (v_buffer_size vd));
                                      "sample_rate" := VInt sr;
                                      "samples" := VInt (len out);
                                      "duration" :=
                                        VFloat (inject_Z (len out) / inject_Z sr) ]} ]} ]}
             200).
Proof.
  intros Hv Hl Hp Hsr Hs Hst Hq Hb id w1 w2 clipped.
  unfold w2, w1.
  rewrite (process_audio_accepts librosa_load rq vd d sr w Hv Hl). simpl.
  split; [eexists; split; reflexivity|]. split.
  { unfold task_status, AsyncResult_of. cbn [backend set_queue set_next_id].
    unfold id. rewrite Hb. reflexivity. }
  unfold worker_step. simpl. rewrite Hq. simpl.
  unfold process_quantum_audio, process_quantum_audio_body, try_catch, bind,
    lift, raise, ret, quantumaudio_stream. simpl.
  rewrite (np_array_tolist _ (layout_proper (v_scheme vd) d Hp)), Hs, Hst.
  rewrite len_np_clip. unfold true_div.
  apply Z.eqb_neq in Hsr. rewrite Hsr.
  unfold task_status, AsyncResult_of. simpl. rewrite lookup_insert_eq. simpl.
  reflexivity.
Qed.

End RoundTrip.

Lemma both_paths_same_transform_call_witness :
  let call := {| sc_data := Arr1 [3#4]; sc_shots := 4000 |} in
  stream_log (worker_step Demo.registry Loud.transform
                (snd (process_audio Loud.decode Demo.bare empty_world)))
  = [call]
  /\ stream_log (snd (quick_process Loud.decode Demo.registry Loud.transform
                        Demo.bare empty_world))
     = [call].
Proof.
  destruct (both_paths_same_transform_call Loud.decode Demo.registry
              Loud.transform Demo.bare EmptyClip.vd (Arr1 [3#4]) 22050 "qpam"
              empty_world eq_refl eq_refl I eq_refl eq_refl) as [H1 H2].
  split; [exact H1 | apply H2; simpl; lia].
Defined.

(** The doubled sample 3/2 comes back as 1 through the asynchronous
    path. *)
Lemma async_round_trip_witness :
  task_status "0"
    (worker_step Demo.registry Loud.transform
       (snd (process_audio Loud.decode Demo.bare empty_world)))
  = Ok (respond
          {[ "task_id" := VStr "0"; "status" := VStr "SUCCESS";
             "result" :=
               VDict {[ "status" := VStr "success";
                        "audio" := VList [VFloat (clip1 (-1) 1 (2 * (3#4)))];
                        "metadata" :=
                          VDict {[ "scheme" := VStr "qpam";
                                   "shots" := VInt 4000;
                                   "buffer_size" := VInt 256;
                                   "sample_rate" := VInt 22050;
                                   "samples" := VInt 1;
                                   "duration" := VFloat (1 / 22050) ]} ]} ]}
          200).
Proof.
  exact (proj2 (proj2
           (async_round_trip Loud.decode Demo.registry Loud.transform
              Demo.bare EmptyClip.vd (Arr1 [3#4]) 22050 "qpam"
              (Arr1 [(2 * (3#4))%Q]) empty_world
              eq_refl eq_refl I ltac:(discriminate) eq_refl eq_refl eq_refl
              eq_refl))).
Defined.

(** ** The answers of the status endpoint *)

(** X8. Whatever the backend holds, an answer of [task_status] is a 200
    that echoes the task id; it carries an error only with status FAILURE
    and a result only with status SUCCESS, never both. A job that raised or
    was revoked is reported as FAILURE with the text of its exception. *)
Theorem task_status_answer task_id w r :
  task_status task_id w = Ok r ->
  status_code r = 200%Z
  /\ body_get r "task_id" = Some (VStr task_id)
  /\ (is_Some (body_get r "error") ->
      body_get r "status" = Some (VStr "FAILURE") /\ body_get r "result" = None)
  /\ (is_Some (body_get r "result") ->
      body_get r "status" = Some (VStr "SUCCESS") /\ body_get r "error" = None)
  /\ (forall exc,
        backend w !! task_id = Some (Failed exc)
        \/ backend w !! task_id = Some (Revoked exc) ->
        body_get r "status" = Some (VStr "FAILURE")
        /\ body_get r "error" = Some (VStr exc)).
Proof.
  unfold task_status, AsyncResult_of.
  destruct (backend w !! task_id) as [[st|result|exc|exc]|] eqn:Hb; simpl;
    [| destruct (is_success_payload result);
       [| destruct result as [| | | | |d]; simpl; try discriminate] | | |];
    intros [= <-]; unfold body_get; simpl;
    repeat match goal with
      | |- _ /\ _ => split
      | |- is_Some _ -> _ =>
          let H := fresh in
          intros [? H]; first [discriminate H | clear H]
      | |- forall exc, _ \/ _ -> _ =>
          let H := fresh in
          intros ? [H|H]; try discriminate H; injection H as ->
      | |- _ = _ => reflexivity
      end.
Qed.

Lemma task_status_answer_witness :
  let w := set_backend {[ "3" := Revoked "revoked" ]} empty_world in
  exists r, task_status "3" w = Ok r
            /\ body_get r "status" = Some (VStr "FAILURE")
            /\ body_get r "error" = Some (VStr "revoked").
Proof.
  intros w. eexists. split; [reflexivity|].
  apply (proj2 (proj2 (proj2 (proj2 (task_status_answer "3" w _ eq_refl))))
           "revoked").
  right. reflexivity.
Defined.

(** ** Failures inside the task *)

Section TaskFailures.

Context {Scheme : Type}.
Variable load_scheme : string -> res (option Scheme).
Variable stream : ndarray -> Scheme -> Z -> res ndarray.

(** X9. A job that fails before the transform leaves no trace but its
    payload: ragged rows, or a scheme that does not load, give the error
    dictionary with the world as it was, so the transform is not called.
    The message for the scheme names it and carries the loader's words. *)
Theorem task_fails_before_transform a w :
  (forall rows, t_audio_data a = L2 rows -> rectangular rows = false ->
     exists msg,
       process_quantum_audio load_scheme stream a w = (Ok (error_payload msg), w))
  /\ (forall d, np_array (t_audio_data a) = Ok d ->
      load_scheme (t_scheme a) = Ok None ->
      process_quantum_audio load_scheme stream a w
      = (Ok (error_payload
               ("Scheme '" +:+ t_scheme a
                  +:+ "' is not available or not implemented: "
                  +:+ ("Scheme '" +:+ t_scheme a
                         +:+ "' returned None - may not be implemented"))), w))
  /\ (forall d m, np_array (t_audio_data a) = Ok d ->
      load_scheme (t_scheme a) = Raise m ->
      process_quantum_audio load_scheme stream a w
      = (Ok (error_payload
               ("Scheme '" +:+ t_scheme a
                  +:+ "' is not available or not implemented: " +:+ m)), w)).
Proof.
  unfold process_quantum_audio, process_quantum_audio_body, try_catch, bind,
    lift, raise, ret.
  split; [|split].
  - intros rows Hr Hrec. rewrite Hr. simpl.
    destruct rows as [|r rows]; [discriminate|]. rewrite Hrec.
    eexists. reflexivity.
  - intros d Hd Hs. rewrite Hd, Hs. reflexivity.
  - intros d m Hd Hs. rewrite Hd, Hs. reflexivity.
Qed.

(** X10. A job that fails after the transform was called still ends as an
    error dictionary: with the transform's message when the transform
    raised, and with "division by zero" when the transform returned but the
    sample rate is 0. In both cases the call of the transform is on the
    log. *)
Theorem task_fails_after_transform a d h w :
  np_array (t_audio_data a) = Ok d ->
  load_scheme (t_scheme a) = Ok (Some h) ->
  let w' := set_stream_log
              (stream_log w ++ [{| sc_data := d; sc_shots := t_shots a |}]) w in
  (forall m, stream d h (t_shots a) = Raise m ->
     process_quantum_audio load_scheme stream a w = (Ok (error_payload m), w'))
  /\ (forall out, stream d h (t_shots a) = Ok out -> t_sample_rate a = 0%Z ->
      process_quantum_audio load_scheme stream a w
      = (Ok (error_payload "division by zero"), w')).
Proof.
  intros Hd Hs w'.
  unfold process_quantum_audio, process_quantum_audio_body, try_catch, bind,
    lift, raise, ret, quantumaudio_stream.
  rewrite Hd, Hs. split.
  - intros m Hst. rewrite Hst. reflexivity.
  - intros out Hst Hsr. rewrite Hst, Hsr. reflexivity.
Qed.

End TaskFailures.

Lemma task_fails_before_transform_witness :
  exists msg,
    process_quantum_audio Demo.registry (Demo.gain 1)
      {| t_audio_data := L2 [[0%Q; 0%Q]; [0%Q]]; t_scheme := "mqsm";
         t_shots := 4000; t_buffer_size := 128; t_sample_rate := 22050 |}
      empty_world
    = (Ok (error_payload msg), empty_world).
Proof.
  apply (proj1 (task_fails_before_transform Demo.registry (Demo.gain 1)
                  {| t_audio_data := L2 [[0%Q; 0%Q]; [0%Q]]; t_scheme := "mqsm";
                     t_shots := 4000; t_buffer_size := 128;
                     t_sample_rate := 22050 |} empty_world)
           [[0%Q; 0%Q]; [0%Q]]); reflexivity.
Defined.

Lemma task_fails_after_transform_witness :
  process_quantum_audio Demo.registry (Demo.gain 1)
    {| t_audio_data := L1 [0%Q]; t_scheme := "qpam"; t_shots := 4000;
       t_buffer_size := 256; t_sample_rate := 0 |} empty_world
  = (Ok (error_payload "division by zero"),
     set_stream_log [{| sc_data := Arr1 [0%Q]; sc_shots := 4000 |}] empty_world).
Proof.
  apply (proj2 (task_fails_after_transform Demo.registry (Demo.gain 1)
                  {| t_audio_data := L1 [0%Q]; t_scheme := "qpam";
                     t_shots := 4000; t_buffer_size := 256;
                     t_sample_rate := 0 |} (Arr1 [0%Q]) "qpam" empty_world
                  eq_refl eq_refl) (Arr1 [(1 * 0)%Q])); reflexivity.
Defined.

(** ** The executor *)

Section Executor.

Context {Scheme : Type}.
Variable load_scheme : string -> res (option Scheme).
Variable stream : ndarray -> Scheme -> Z -> res ndarray.

(** One step: the oldest job leaves the queue and its payload is filed as
    a success. *)
Lemma worker_step_head id a q w :
  queue w = (id, a) :: q ->
  exists payload,
    structured payload
    /\ queue (worker_step load_scheme stream w) = q
    /\ backend (worker_step load_scheme stream w)
       = <[id := Succeeded (VDict payload)]> (backend w).
Proof.
  intros Hq. unfold worker_step. rewrite Hq.
  destruct (process_quantum_audio_structured load_scheme stream a (set_queue q w))
    as (payload & w' & Hp & Hs & Hq' & Hb').
  rewrite Hp. exists payload. simpl. rewrite Hq', Hb'. auto.
Qed.

Lemma worker_run_drains q :
  forall w, queue w = q ->
    let w' := worker_run load_scheme stream (length q) w in
    queue w' = []
    /\ (forall id, id ∈ map fst q ->
        exists payload,
          backend w' !! id = Some (Succeeded (VDict payload))
          /\ structured payload)
    /\ (forall id, id ∉ map fst q -> backend w' !! id = backend w !! id).
Proof.
  induction q as [|[id a] q IH]; intros w Hq; simpl.
  - split; [exact Hq|]. split; [|reflexivity].
    intros id Hin. inversion Hin.
  - destruct (worker_step_head id a q w Hq) as (payload & Hs & Hq1 & Hb1).
    destruct (IH (worker_step load_scheme stream w) Hq1) as (Hd & Hin & Hout).
    split; [exact Hd|]. split.
    + intros id' Hin'.
      destruct (decide (id' ∈ map fst q)) as [Hq'|Hq']; [apply Hin, Hq'|].
      apply elem_of_cons in Hin' as [->|Hin']; [|contradiction].
      rewrite (Hout id Hq'), Hb1, lookup_insert_eq. eauto.
    + intros id' Hnin. apply not_elem_of_cons in Hnin as [Hne Hnin].
      rewrite (Hout id' Hnin), Hb1. apply lookup_insert_ne. congruence.
Qed.

(** X11. Run for as many steps as there are queued jobs, the executor
    empties the queue; every queued handle then holds a SUCCESS whose
    payload is a success or an error dictionary, never a FAILURE of the
    executor's own, and the entries of all other handles are as they
    were. *)
Theorem worker_drains_queue w :
  let w' := worker_run load_scheme stream (length (queue w)) w in
  queue w' = []
  /\ (forall id, id ∈ map fst (queue w) ->
      exists payload,
        backend w' !! id = Some (Succeeded (VDict payload))
        /\ structured payload)
  /\ (forall id, id ∉ map fst (queue w) -> backend w' !! id = backend w !! id).
Proof. apply worker_run_drains. reflexivity. Qed.

End Executor.

Lemma worker_drains_queue_witness :
  let w := snd (process_audio CacheExample.decode CacheExample.rq
                  (snd (process_audio CacheExample.decode CacheExample.rq
                          empty_world))) in
  exists payload,
    backend (worker_run Demo.registry (Demo.gain 1) 2 w) !! "1"
    = Some (Succeeded (VDict payload))
    /\ structured payload.
Proof.
  intros w.
  apply (proj1 (proj2 (worker_drains_queue Demo.registry (Demo.gain 1) w)) "1").
  set_solver.
Defined.

(** ** More on the patch store *)

Module PatchStoreMore.
Import PatchStore PatchStoreFacts.

Lemma validate_buffer_size_inl o bs :
  validate_buffer_size o = inl bs ->
  bs = o /\ (forall n, o = Some n ->
             (integer_field_min <= n <= integer_field_max)%Z).
Proof.
  unfold validate_buffer_size. destruct o as [n|];
    [|intros [= <-]; split; [reflexivity | discriminate]].
  destruct (Z.ltb_spec n integer_field_min); [discriminate|].
  destruct (Z.ltb_spec integer_field_max n); [discriminate|].
  simpl. intros [= <-]. split; [reflexivity|]. intros m [= <-]. lia.
Qed.

Lemma serializer_clean_fields t inst partial d c :
  QuantumPatchSerializer t inst partial d = inl c ->
  c_name c = d_name d /\ c_description c = d_description d
  /\ c_scheme c = d_scheme d /\ c_shots c = d_shots d
  /\ c_buffer_size c = d_buffer_size d /\ c_parameters c = d_parameters d.
Proof.
  intros Hv. destruct (serializer_clean _ _ _ _ _ Hv) as (Hs & Hn & _).
  revert Hv. unfold QuantumPatchSerializer.
  destruct (validate_name _ _ _ _) as [nm|];
    [|destruct (validate_scheme _), (validate_shots _), (validate_buffer_size _);
      discriminate].
  destruct (validate_scheme (d_scheme d)) as [sc|] eqn:Hsc;
    [|destruct (validate_shots _), (validate_buffer_size _); discriminate].
  destruct (validate_shots _) as [sh|];
    [|destruct (validate_buffer_size _); discriminate].
  destruct (validate_buffer_size _) as [bs|] eqn:Hbs; [|discriminate].
  apply validate_buffer_size_inl in Hbs as [Hbs _].
  intros [= <-]. simpl in *. repeat split; auto.
  unfold validate_scheme in Hsc. destruct (d_scheme d) as [s|]; [|congruence].
  destruct (str_in s SCHEME_CHOICES); congruence.
Qed.

(** X12. A write that is accepted is what a read then returns. After a
    create answered 201, the patch is stored under the new id with the
    given name, the given values of the other fields or the declared
    defaults (no description, qpam, 4000 shots, buffer size 256), and a GET
    of the id returns the body of the 201; after an update answered 200, a
    GET returns the body of the 200. A buffer size outside the range of the
    integer column is not accepted: the create is answered 400 with an
    error for the field, and nothing is stored. *)
Theorem write_then_retrieve d st :
  (status_code (fst (create d st)) = 201%Z ->
   retrieve (next_pk st) (snd (create d st))
   = {| data := data (fst (create d st)); status_code := 200 |}
   /\ exists p,
       rows (snd (create d st)) !! next_pk st = Some p
       /\ d_name d = Some (name p)
       /\ description p = default "" (d_description d)
       /\ scheme p = default "qpam" (d_scheme d)
       /\ shots p = default 4000%Z (d_shots d)
       /\ buffer_size p = default 256%Z (d_buffer_size d)
       /\ (integer_field_min <= buffer_size p <= integer_field_max)%Z)
  /\ (forall partial pk,
        status_code (fst (update partial pk d st)) = 200%Z ->
        retrieve pk (snd (update partial pk d st)) = fst (update partial pk d st))
  /\ (forall n, d_buffer_size d = Some n ->
      (n < integer_field_min \/ integer_field_max < n)%Z ->
      exists errs,
        create d st = (respond errs 400, st)
        /\ is_Some (errs !! "buffer_size")).
Proof.
  split; [|split].
  - unfold create.
    destruct (QuantumPatchSerializer (rows st) None false d) as [c|e] eqn:Hv;
      simpl; [|discriminate].
    intros _. unfold retrieve. simpl. rewrite lookup_insert_eq.
    split; [reflexivity|].
    destruct (serializer_clean_fields _ _ _ _ _ Hv) as (Hn & Hde & Hsc & Hsh & Hb & _).
    destruct (serializer_clean _ _ _ _ _ Hv) as (_ & _ & Hreq & _).
    destruct (Hreq eq_refl) as [s Hs].
    assert (forall n, d_buffer_size d = Some n ->
                      (integer_field_min <= n <= integer_field_max)%Z) as Hrange.
    { revert Hv. unfold QuantumPatchSerializer.
      destruct (validate_name _ _ _ _), (validate_scheme _), (validate_shots _),
        (validate_buffer_size _) as [bs|] eqn:Hbs; try discriminate.
      intros _. apply (validate_buffer_size_inl _ _ Hbs). }
    eexists. split; [reflexivity|]. simpl.
    rewrite <- Hn, <- Hde, <- Hsc, <- Hsh, Hs. rewrite Hb.
    repeat split;
      (destruct (d_buffer_size d) as [n|]; simpl;
       [apply (Hrange n eq_refl) | unfold integer_field_min, integer_field_max; lia]).
  - intros partial pk. unfold update.
    destruct (rows st !! pk) as [p|]; simpl; [|discriminate].
    destruct (QuantumPatchSerializer (rows st) (Some pk) partial d) as [c|e];
      simpl; [|discriminate].
    intros _. unfold retrieve. simpl. rewrite lookup_insert_eq. reflexivity.
  - intros n Hn Hr.
    assert (exists codes, validate_buffer_size (d_buffer_size d) = inr codes)
      as [codes Hc].
    { rewrite Hn. unfold validate_buffer_size.
      destruct (Z.ltb_spec n integer_field_min);
        destruct (Z.ltb_spec integer_field_max n); simpl; eauto. lia. }
    exists (add_error "name" (validate_name (rows st) None false (d_name d))
              (add_error "scheme" (validate_scheme (d_scheme d))
                 (add_error "shots" (validate_shots (d_shots d))
                    (add_error "buffer_size" (@inr (option Z) _ codes) ∅)))).
    unfold create, QuantumPatchSerializer. rewrite Hc.
    destruct (validate_name _ _ _ _), (validate_scheme _), (validate_shots _);
      (split; [reflexivity|]); simpl;
      rewrite ?lookup_insert_ne by done; rewrite lookup_insert_eq; eauto.
Qed.

(** X13. Deleting a patch removes the patch and, with it, exactly its
    cached samples: a sample is kept if and only if it was there and
    belongs to another patch; the other patches stay, and a GET of the
    deleted id is a 404. Deleting an id that is not there is a 404 and
    changes nothing. *)
Theorem destroy_cascades pk st :
  (forall p, rows st !! pk = Some p ->
     let st' := snd (destroy pk st) in
     status_code (fst (destroy pk st)) = 204%Z
     /\ rows st' !! pk = None
     /\ (forall k, k <> pk -> rows st' !! k = rows st !! k)
     /\ (forall ps, ps ∈ samples st' <-> ps ∈ samples st /\ ps_patch ps <> pk)
     /\ status_code (retrieve pk st') = 404%Z)
  /\ (rows st !! pk = None ->
      destroy pk st = (respond {[ "detail" := VStr "Not found." ]} 404, st)).
Proof.
  unfold destroy. split.
  - intros p Hp. rewrite Hp. simpl. split; [reflexivity|].
    split; [apply lookup_delete_eq|].
    split; [intros k Hk; apply lookup_delete_ne; congruence|].
    split.
    + intros ps. rewrite list_elem_of_filter. tauto.
    + unfold retrieve. simpl. rewrite lookup_delete_eq. reflexivity.
  - intros ->. reflexivity.
Qed.

Lemma step_pks_below_next o st :
  pks_below_next st ->
  pks_below_next (snd (step o st)) /\ (next_pk st <= next_pk (snd (step o st)))%Z.
Proof.
  intros Hk. destruct o as [d|partial pk d|pk]; simpl.
  - unfold create.
    destruct (QuantumPatchSerializer _ _ _ _); simpl; [|split; [exact Hk|lia]].
    split; [|lia]. intros k [p Hp]. simpl in *.
    apply lookup_insert_Some in Hp as [[<- _]|[_ Hp]]; [lia|].
    specialize (Hk k (mk_is_Some _ _ Hp)). lia.
  - unfold update.
    destruct (rows st !! pk) as [p0|] eqn:Hp0; simpl; [|split; [exact Hk|lia]].
    destruct (QuantumPatchSerializer _ _ _ _); simpl; [|split; [exact Hk|lia]].
    split; [|lia]. intros k [p Hp]. simpl in *.
    apply lookup_insert_Some in Hp as [[<- _]|[_ Hp]].
    + apply Hk. eauto.
    + apply Hk. eauto.
  - unfold destroy.
    destruct (rows st !! pk) as [p0|] eqn:Hp0; simpl; [|split; [exact Hk|lia]].
    split; [|lia]. intros k [p Hp]. simpl in *.
    apply lookup_delete_Some in Hp as [_ Hp]. apply Hk. eauto.
Qed.

Lemma run_pks_below_next ops :
  forall st, pks_below_next st -> pks_below_next (run ops st).
Proof.
  unfold run. induction ops as [|o ops IH]; intros st H; simpl; [exact H|].
  apply IH, step_pks_below_next, H.
Qed.

(** X14. Ids are never reused. After any history of requests the next id
    is not in use, so a create never replaces a patch: every patch that was
    stored is still stored, unchanged, and the table has one row more when
    the create is accepted. *)
Theorem create_never_overwrites ops d :
  let st := run ops empty_store in
  rows st !! next_pk st = None
  /\ (forall k p, rows st !! k = Some p ->
      rows (snd (create d st)) !! k = Some p)
  /\ (status_code (fst (create d st)) = 201%Z ->
      size (rows (snd (create d st))) = S (size (rows st))).
Proof.
  intros st.
  assert (pks_below_next st) as Hk.
  { apply run_pks_below_next. intros k [p Hp]. simpl in Hp.
    rewrite lookup_empty in Hp. discriminate. }
  assert (rows st !! next_pk st = None) as Hnone.
  { destruct (rows st !! next_pk st) as [p|] eqn:Hp; [|reflexivity].
    specialize (Hk _ (mk_is_Some _ _ Hp)). lia. }
  split; [exact Hnone|]. unfold create.
  destruct (QuantumPatchSerializer (rows st) None false d) as [c|e]; simpl.
  - split.
    + intros k p Hp. rewrite lookup_insert_ne; [exact Hp|]. congruence.
    + intros _. apply map_size_insert_None, Hnone.
  - split; [auto | discriminate].
Qed.

End PatchStoreMore.

Lemma write_then_retrieve_witness :
  PatchStore.retrieve 1 PatchExample.st1
  = {| data := data (fst (PatchStore.create PatchExample.p1 PatchStore.empty_store));
       status_code := 200 |}.
Proof.
  apply (proj1 (PatchStoreMore.write_then_retrieve PatchExample.p1
                  PatchStore.empty_store)).
  reflexivity.
Defined.

Lemma destroy_cascades_witness :
  let st := {| PatchStore.rows := PatchStore.rows PatchExample.st1;
               PatchStore.next_pk := 2; PatchStore.clock := 1;
               PatchStore.samples := [CacheExample.cached] |} in
  (PatchStore.rows (snd (PatchStore.destroy 1 st)) !! 1%Z = None
   /\ (CacheExample.cached ∈ PatchStore.samples (snd (PatchStore.destroy 1 st))
       <-> CacheExample.cached ∈ PatchStore.samples st
           /\ ps_patch CacheExample.cached <> 1%Z))
  /\ PatchStore.destroy 7 st
     = (respond {[ "detail" := VStr "Not found." ]} 404, st).
Proof.
  intros st. split.
  - destruct (PatchStore.rows st !! 1%Z) as [p|] eqn:Hp; [|discriminate Hp].
    destruct (proj1 (PatchStoreMore.destroy_cascades 1 st) p Hp)
      as (_ & Hgone & _ & Hs & _).
    split; [exact Hgone | exact (Hs CacheExample.cached)].
  - apply (proj2 (PatchStoreMore.destroy_cascades 7 st)). reflexivity.
Defined.

Lemma create_never_overwrites_witness :
  size (PatchStore.rows
          (snd (PatchStore.create
                  {| PatchStore.d_name := Some "p2"; PatchStore.d_description := None;
                     PatchStore.d_scheme := None; PatchStore.d_shots := None;
                     PatchStore.d_buffer_size := None;
                     PatchStore.d_parameters := None |}
                  PatchExample.st1)))
  = 2%nat.
Proof.
  apply (proj2 (proj2 (PatchStoreMore.create_never_overwrites
                         [PatchStore.Create PatchExample.p1]
                         {| PatchStore.d_name := Some "p2";
                            PatchStore.d_description := None;
                            PatchStore.d_scheme := None;
                            PatchStore.d_shots := None;
                            PatchStore.d_buffer_size := None;
                            PatchStore.d_parameters := None |}))).
  reflexivity.
Defined.

(** ** The file task *)

Lemma scale_down_in_unit_range k (lo hi : Q) d :
  (0 < k)%Q -> (- k <= lo)%Q -> (hi <= k)%Q ->
  Forall (fun x => (lo <= x /\ x <= hi)%Q) (samples_of d) ->
  in_unit_range (scale_down k d).
Proof.
  intros Hk Hlo Hhi.
  assert (forall l, Forall (fun x => (lo <= x /\ x <= hi)%Q) l ->
                    Forall (fun x => (-1 <= x /\ x <= 1)%Q)
                      (map (fun x => (x / k)%Q) l)) as Hmap.
  { intros l Hl. induction Hl as [|x l [H1 H2] _ IH]; simpl; constructor; auto.
    split.
    - apply Qle_shift_div_l; [exact Hk | lra].
    - apply Qle_shift_div_r; [exact Hk | lra]. }
  unfold in_unit_range. destruct d as [xs|rows]; simpl; [apply Hmap|].
  intros Hr. apply List.Forall_concat in Hr. apply List.Forall_concat.
  induction Hr as [|r rows Hr0 _ IH]; simpl; constructor; auto.
Qed.

Lemma transpose_int16 rows :
  int16_samples (Arr2 rows) -> int16_samples (Arr2 (transpose rows)).
Proof.
  unfold int16_samples. simpl. intros Hr.
  apply List.Forall_concat in Hr. apply List.Forall_concat.
  unfold transpose. apply Forall_forall. intros col Hcol.
  apply list_elem_of_In, in_map_iff in Hcol as (i & <- & _).
  apply Forall_forall. intros x Hx.
  apply list_elem_of_In, in_map_iff in Hx as (r & <- & Hin).
  destruct (nth_in_or_default i r 0%Q) as [Hi| ->].
  - rewrite List.Forall_forall in Hr. specialize (Hr r Hin).
    rewrite List.Forall_forall in Hr. apply Hr, Hi.
  - split; discriminate.
Qed.

(** X15. The integer normalisation of the file task. Sixteen-bit data
    that is mono, or kept in channels for a multi-channel scheme, reaches
    the transform with every sample in [[-1, 1]]. A two-dimensional clip
    under a mono-only scheme reaches it as the plain average of each frame,
    whatever its element type: averaging comes first and leaves no integer
    type, so such a clip is not divided. *)
Theorem file_normalization scheme a :
  (ta_dtype a = Int16 -> int16_samples (ta_data a) ->
   ndim (ta_data a) = 1%Z \/ str_in scheme ["mqsm"; "msqpam"] = true ->
   in_unit_range (ta_data (file_normalize (file_layout scheme a))))
  /\ (forall rows, ta_data a = Arr2 rows ->
      str_in scheme ["mqsm"; "msqpam"] = false ->
      ta_data (file_normalize (file_layout scheme a)) = Arr1 (np_mean_axis1 rows)).
Proof.
  destruct a as [t d]. cbn [ta_dtype ta_data]. split.
  - intros -> Hi Hcase. unfold file_layout. cbn [ta_dtype ta_data].
    destruct d as [xs|rows].
    + apply (scale_down_in_unit_range 32768 (-32768) 32767 (Arr1 xs));
        [reflexivity | discriminate | discriminate | exact Hi].
    + destruct Hcase as [Hn|Hm]; [discriminate|].
      rewrite Hm.
      apply (scale_down_in_unit_range 32768 (-32768) 32767 (Arr2 (transpose rows)));
        [reflexivity | discriminate | discriminate |].
      apply (transpose_int16 rows Hi).
  - intros rows -> Hm. unfold file_layout. cbn [ta_dtype ta_data]. rewrite Hm.
    destruct t; reflexivity.
Qed.

Lemma file_normalization_witness :
  in_unit_range (ta_data (file_normalize (file_layout "qpam" FileDemo.pcm16)))
  /\ ta_data (file_normalize
                (file_layout "qpam"
                   {| ta_dtype := Int16;
                      ta_data := Arr2 [[inject_Z 16384; inject_Z 16384]] |}))
     = Arr1 (np_mean_axis1 [[inject_Z 16384; inject_Z 16384]]).
Proof.
  split.
  - apply (proj1 (file_normalization "qpam" FileDemo.pcm16)).
    + reflexivity.
    + unfold int16_samples. simpl. repeat constructor; discriminate.
    + left. reflexivity.
  - apply (proj2 (file_normalization "qpam"
                    {| ta_dtype := Int16;
                       ta_data := Arr2 [[inject_Z 16384; inject_Z 16384]] |}));
      reflexivity.
Defined.

Section FileTaskFacts.

Context {Scheme Circuit : Type}.
Variable sf_read : string -> res (typed_array * Z).
Variable load_scheme : string -> res (option Scheme).
Variable stream_buffered : ndarray -> option Scheme -> Z -> Z -> res ndarray.
Variable encode : Scheme -> ndarray -> res Circuit.
Variable decode : Scheme -> Circuit -> Z -> res ndarray.

(** X16. The file task returns for every input and raises for none: its
    value is a success dictionary with audio and metadata, or an error
    dictionary; a file that cannot be read gives the error dictionary with
    the reader's message, and so does a scheme whose loader raises. *)
Theorem file_task_structured path scheme shots buffer_size :
  exists payload,
    process_audio_file sf_read load_scheme stream_buffered encode decode
      path scheme shots buffer_size = Ok payload
    /\ structured payload
    /\ (forall m, sf_read path = Raise m -> payload = error_payload m)
    /\ (forall a sr m, sf_read path = Ok (a, sr) ->
        load_scheme scheme = Raise m -> payload = error_payload m).
Proof.
  unfold process_audio_file, res_catch, res_bind.
  destruct (sf_read path) as [[a sr]|m];
    [|eexists; split; [reflexivity|]; split; [right; eexists; reflexivity|];
      split; [intros ? [= <-]; reflexivity | discriminate]].
  destruct (load_scheme scheme) as [qa|m];
    [|eexists; split; [reflexivity|]; split; [right; eexists; reflexivity|];
      split; [discriminate | intros ? ? ? _ [= <-]; reflexivity]].
  destruct (file_transform _ _ _ _ _ _ _) as [out|m];
    [|eexists; split; [reflexivity|]; split; [right; eexists; reflexivity|];
      split; discriminate].
  destruct (true_div _ _) as [dur|m];
    [|eexists; split; [reflexivity|]; split; [right; eexists; reflexivity|];
      split; discriminate].
  eexists. split; [reflexivity|]. split; [|split; discriminate].
  left. repeat split; eexists; reflexivity.
Qed.


End FileTaskFacts.


(** The file task on the 16-bit clip: the samples scaled, not clipped. *)
Example file_task_run :
  process_audio_file (FileDemo.reader FileDemo.pcm16 22050) Demo.registry
    (FileDemo.stream_gain 2) FileDemo.encode FileDemo.decode
    "clip.wav" "qpam" 4000 256
  = Ok {[ "status" := VStr "success";
          "audio" := VList [VFloat (inject_Z 16384 / 32768);
                            VFloat (inject_Z (-32768) / 32768)];
          "metadata" := VDict {[ "scheme" := VStr "qpam"; "shots" := VInt 4000;
                                 "sample_rate" := VInt 22050;
                                 "samples" := VInt 2;
                                 "duration" := VFloat (2 / 22050) ]} ]}.
Proof. reflexivity. Qed.

(** ** What reaches the queue, the gate and the error body *)

Section Bounds.

Context {Scheme : Type}.
Variable librosa_load : list Byte.byte -> res (ndarray * Z).
Variable load_scheme : string -> res (option Scheme).
Variable stream : ndarray -> Scheme -> Z -> res ndarray.

(** X18. Only validated parameters reach the queue: if every queued job
    has a known scheme, shots within [[1000, 8000]], a buffer size within
    [[128, 1024]] and, for sqpam, qsm and mqsm, a buffer size of exactly
    128, then the same holds after [process_audio] has handled any request
    whatever. *)
Theorem queued_jobs_in_bounds rq w :
  Forall job_in_bounds (map snd (queue w)) ->
  Forall job_in_bounds (map snd (queue (snd (process_audio librosa_load rq w)))).
Proof.
  intros Hq.
  destruct (AudioProcessRequestSerializer rq) as [vd|errs] eqn:Hv0;
    [|unfold process_audio; rewrite Hv0; exact Hq].
  destruct (accepted_well_formed rq vd Hv0) as [Hw Hvd].
  destruct (serializer_valid rq vd Hv0) as (_ & _ & Hshots & _ & _ & Hsc & Hbs).
  destruct (librosa_load (v_audio vd)) as [[d sr]|m] eqn:Hl;
    [|rewrite (process_audio_undecodable librosa_load rq _ m w Hv0 Hl); exact Hq].
  rewrite (process_audio_accepts librosa_load rq _ d sr w Hv0 Hl).
  simpl. rewrite map_app. apply Forall_app. split; [exact Hq|].
  constructor; [|constructor].
  destruct Hw as (_ & _ & Hn & _). unfold job_in_bounds. simpl.
  assert (1000 <= v_shots vd <= 8000)%Z as Hsh.
  { rewrite Hshots. destruct (rq_shots rq) as [n|]; simpl; [auto | lia]. }
  split; [apply str_in_elem, Hsc|]. split; [exact Hsh|].
  unfold tuned_buffer_size.
  destruct (str_in (v_scheme vd) ["sqpam"; "qsm"; "mqsm"]) eqn:Hc.
  - split; [lia|]. intros _. lia.
  - split; [lia|]. intros Hin. apply str_in_elem in Hin. congruence.
Qed.

(** X19. The size gate of [quick_process], for an accepted request whose
    upload decodes: the answer is 400 exactly when [len] of the clip in the
    layout of the scheme exceeds 2048, and the transform is then not
    called. For a scheme other than mqsm and msqpam that is the number of
    samples per channel, so 2049 samples are refused and 2048 are let
    through. *)
Theorem quick_process_gate rq vd d sr w :
  AudioProcessRequestSerializer rq = inl vd ->
  librosa_load (v_audio vd) = Ok (d, sr) ->
  let r := fst (quick_process librosa_load load_scheme stream rq w) in
  ((exists r', r = Ok r' /\ status_code r' = 400%Z)
   <-> (2048 < len (to_scheme_layout (v_scheme vd) d))%Z)
  /\ ((2048 < len (to_scheme_layout (v_scheme vd) d))%Z ->
      snd (quick_process librosa_load load_scheme stream rq w) = w)
  /\ (str_in (v_scheme vd) ["mqsm"; "msqpam"] = false ->
      len (to_scheme_layout (v_scheme vd) d) = sample_count d).
Proof.
  intros Hv Hl r. split; [|split].
  - split.
    + intros (r' & Hr & Hc). unfold r in Hr.
      destruct (Z.ltb_spec 2048 (len (to_scheme_layout (v_scheme vd) d)))
        as [Hlt|Hge]; [exact Hlt|].
      exfalso. revert Hr. unfold quick_process. rewrite Hv.
      unfold try_catch, bind, lift. rewrite Hl.
      apply Z.ltb_ge in Hge. rewrite Hge.
      destruct (load_scheme (v_scheme vd)) as [[h|]|m]; simpl;
        try (intros [= <-]; discriminate Hc).
      unfold quantumaudio_stream.
      destruct (stream _ h (v_shots vd)); simpl; intros [= <-]; discriminate Hc.
    + intros Hlt. unfold r.
      rewrite (quick_process_too_long librosa_load load_scheme stream
                 rq vd d sr w Hv Hl Hlt).
      eexists. split; reflexivity.
  - intros Hlt.
    rewrite (quick_process_too_long librosa_load load_scheme stream
               rq vd d sr w Hv Hl Hlt). reflexivity.
  - apply len_mono_layout.
Qed.

End Bounds.

Lemma queued_jobs_in_bounds_witness :
  Forall job_in_bounds
    (map snd (queue (snd (process_audio (Demo.codec (Arr1 [0%Q]) 22050)
                            {| rq_audio := Some Demo.upload;
                               rq_scheme := Some "qsm"; rq_shots := None;
                               rq_buffer_size := Some 512;
                               rq_use_patch := None |} empty_world)))).
Proof.
  apply queued_jobs_in_bounds. constructor.
Defined.

Lemma quick_process_gate_witness :
  let r := fst (quick_process (Demo.codec (Arr1 (repeat 0%Q 2049)) 44100)
                  Demo.registry (Demo.gain 1) Demo.bare empty_world) in
  exists r', r = Ok r' /\ status_code r' = 400%Z.
Proof.
  intros r.
  apply (proj1 (quick_process_gate (Demo.codec (Arr1 (repeat 0%Q 2049)) 44100)
                  Demo.registry (Demo.gain 1) Demo.bare EmptyClip.vd
                  (Arr1 (repeat 0%Q 2049)) 44100 empty_world eq_refl eq_refl)).
  vm_compute. reflexivity.
Defined.


